(** * The file-based IPC channel of mcp_server.py, and its installer's
      JSON configuration merge

    A shallow embedding of [send_command], [ensure_ipc_dir],
    [merge_json_config], [remove_json_config_key], [_quick_ping],
    [make_result], [call_tool] and [get_reaper_resource_path] from
    [src/mcp_server.py].

    Python values are the image of the [json] module: [None], booleans,
    integers, strings, lists and insertion-ordered dictionaries with string
    keys.  JSON numbers with a fraction or an exponent (Python floats) are
    outside the model.  A Python [str] is represented by its UTF-8
    encoding, a file by its bytes.

    The code runs against a world it does not control: the file system,
    the monotonic clock, the random sources behind [uuid.uuid4] and
    [tempfile.mkstemp], and the listener process that answers on
    [response.json].  All of these are collected in an [Env]; every system
    call the code makes takes one tick, and the environment says, tick by
    tick, whether the call fails, how long it lasts and what the listener
    does to the response file just before it.  Every call that goes to the
    operating system can be refused, [Path.exists] included.  Times are
    exact numbers of clock units; the two settings that [float] reads
    from the process environment can also be infinite or not a number.
    The [json] module itself is a parameter ([JsonLib]); [PyJson] gives an
    executable instance. *)

From Stdlib Require Import ZArith List String Ascii Bool Lia.
From stdpp Require Import base option gmap strings list.

Set Warnings "-register-all".

Open Scope string_scope.
Open Scope Z_scope.

(** ** Python values *)

Inductive pyval : Type :=
| PNone
| PBool (b : bool)
| PInt (z : Z)
| PStr (s : string)
| PList (items : list pyval)
| PDict (entries : list (string * pyval)).

Inductive exn : Type :=
| OSError (msg : string)
| JSONDecodeError
| UnicodeDecodeError
| TypeError
| AttributeError
| KeyError
| IndexError
| ValueError
| OverflowError
| RecursionError
| OtherError (name : string).

Inductive res (A : Type) : Type :=
| Ret (a : A)
| Raise (e : exn).

Arguments Ret {A} a.
Arguments Raise {A} e.

Definition res_bind {A B} (r : res A) (k : A -> res B) : res B :=
  match r with
  | Ret a => k a
  | Raise e => Raise e
  end.

Notation "x <~ r ;; k" := (res_bind r (fun x => k))
  (at level 100, r at next level, right associativity).

(** *** Dictionaries: insertion-ordered, one entry per key *)

Fixpoint dict_get (k : string) (d : list (string * pyval)) : option pyval :=
  match d with
  | [] => None
  | (k', v) :: t => if String.eqb k k' then Some v else dict_get k t
  end.

(** [d[k] = v]: an existing key keeps its position, a new key goes last. *)
Fixpoint dict_set (k : string) (v : pyval) (d : list (string * pyval))
  : list (string * pyval) :=
  match d with
  | [] => [(k, v)]
  | (k', v') :: t =>
      if String.eqb k k' then (k', v) :: t else (k', v') :: dict_set k v t
  end.

Fixpoint dict_del (k : string) (d : list (string * pyval))
  : list (string * pyval) :=
  match d with
  | [] => []
  | (k', v') :: t =>
      if String.eqb k k' then t else (k', v') :: dict_del k t
  end.

Definition dict_has (k : string) (d : list (string * pyval)) : bool :=
  match dict_get k d with Some _ => true | None => false end.

(** *** [==] on Python values

    [True == 1] and [False == 0]; a string equals only a string; lists are
    compared in order, dictionaries key by key whatever the order. *)

Fixpoint py_eq (a b : pyval) : bool :=
  match a, b with
  | PNone, PNone => true
  | PBool x, PBool y => Bool.eqb x y
  | PBool x, PInt y => Z.eqb (Z.b2z x) y
  | PInt x, PBool y => Z.eqb x (Z.b2z y)
  | PInt x, PInt y => Z.eqb x y
  | PStr x, PStr y => String.eqb x y
  | PList xs, PList ys =>
      (fix go (l1 l2 : list pyval) : bool :=
         match l1, l2 with
         | [], [] => true
         | x :: l1', y :: l2' => py_eq x y && go l1' l2'
         | _, _ => false
         end) xs ys
  | PDict da, PDict db =>
      Nat.eqb (length da) (length db)
      && (fix go (l : list (string * pyval)) : bool :=
            match l with
            | [] => true
            | (k, v) :: t =>
                match dict_get k db with
                | Some w => py_eq v w
                | None => false
                end && go t
            end) da
  | _, _ => false
  end.

(** Truth value of an object, as [or] and [if] test it. *)
Definition py_truthy (v : pyval) : bool :=
  match v with
  | PNone => false
  | PBool b => b
  | PInt z => negb (Z.eqb z 0)
  | PStr s => negb (String.eqb s "")
  | PList l => match l with [] => false | _ => true end
  | PDict d => match d with [] => false | _ => true end
  end.

(** [a or b] *)
Definition py_or (a b : pyval) : pyval := if py_truthy a then a else b.

(** [needle in hay] on strings: substring test. *)
Fixpoint str_contains (needle hay : string) : bool :=
  String.prefix needle hay
  || match hay with
     | EmptyString => false
     | String _ t => str_contains needle t
     end.

(** [key in container], for a string [key]. *)
Definition py_contains (key : string) (container : pyval) : res bool :=
  match container with
  | PDict d => Ret (dict_has key d)
  | PList l => Ret (existsb (fun x => py_eq x (PStr key)) l)
  | PStr s => Ret (str_contains key s)
  | _ => Raise TypeError
  end.

(** [container[key]], for a string [key]. *)
Definition py_getitem (container : pyval) (key : string) : res pyval :=
  match container with
  | PDict d => match dict_get key d with Some v => Ret v | None => Raise KeyError end
  | _ => Raise TypeError
  end.

(** [container[key] = v], for a string [key]. *)
Definition py_setitem (container : pyval) (key : string) (v : pyval) : res pyval :=
  match container with
  | PDict d => Ret (PDict (dict_set key v d))
  | _ => Raise TypeError
  end.

(** [del container[key]], for a string [key]. *)
Definition py_delitem (container : pyval) (key : string) : res pyval :=
  match container with
  | PDict d => if dict_has key d then Ret (PDict (dict_del key d)) else Raise KeyError
  | _ => Raise TypeError
  end.

(** [obj.get(key)]: only dictionaries have the method. *)
Definition py_get (obj : pyval) (key : string) : res pyval :=
  match obj with
  | PDict d => Ret (match dict_get key d with Some v => v | None => PNone end)
  | _ => Raise AttributeError
  end.

(** Dictionaries have one entry per key, at every depth. *)
Fixpoint keys_unique (ks : list string) : bool :=
  match ks with
  | [] => true
  | k :: t => negb (existsb (String.eqb k) t) && keys_unique t
  end.

Fixpoint py_wf (v : pyval) : bool :=
  match v with
  | PList l => forallb py_wf l
  | PDict d =>
      keys_unique (map fst d)
      && (fix go (l : list (string * pyval)) : bool :=
            match l with
            | [] => true
            | (_, x) :: t => py_wf x && go t
            end) d
  | _ => true
  end.

(** ** Text and bytes *)

Definition byte (a : ascii) : N := N_of_ascii a.

Definition in_range (lo hi : N) (a : ascii) : bool :=
  (N.leb lo (byte a) && N.leb (byte a) hi)%N.

Definition is_cont (a : ascii) : bool := in_range 128 191 a.

(** The byte strings the UTF-8 decoder accepts (no overlong forms, no
    surrogates, nothing above U+10FFFF). *)
Fixpoint utf8_valid (s : string) : bool :=
  match s with
  | EmptyString => true
  | String a t =>
      if in_range 0 127 a then utf8_valid t
      else if in_range 194 223 a then
        match t with
        | String c1 t1 => is_cont c1 && utf8_valid t1
        | _ => false
        end
      else if in_range 224 239 a then
        match t with
        | String c1 (String c2 t2) =>
            (if N.eqb (byte a) 224 then in_range 160 191 c1
             else if N.eqb (byte a) 237 then in_range 128 159 c1
             else is_cont c1)
            && is_cont c2 && utf8_valid t2
        | _ => false
        end
      else if in_range 240 244 a then
        match t with
        | String c1 (String c2 (String c3 t3)) =>
            (if N.eqb (byte a) 240 then in_range 144 191 c1
             else if N.eqb (byte a) 244 then in_range 128 143 c1
             else is_cont c1)
            && is_cont c2 && is_cont c3 && utf8_valid t3
        | _ => false
        end
      else false
  end.

(** Reading in text mode turns "\r\n" and a lone "\r" into "\n". *)
Fixpoint universal_newlines (s : string) : string :=
  match s with
  | EmptyString => EmptyString
  | String a t =>
      if N.eqb (byte a) 13 then
        match t with
        | String b t' =>
            if N.eqb (byte b) 10 then String b (universal_newlines t')
            else String "010"%char (universal_newlines t)
        | EmptyString => String "010"%char EmptyString
        end
      else String a (universal_newlines t)
  end.

(** Writing in text mode turns "\n" into the platform's line separator. *)
Fixpoint crlf (s : string) : string :=
  match s with
  | EmptyString => EmptyString
  | String a t =>
      if N.eqb (byte a) 10 then String "013"%char (String a (crlf t))
      else String a (crlf t)
  end.

(** One white-space character, as [str.isspace] has it, at the head of a
    UTF-8 string: U+0009..000D, U+001C..0020, U+0085, U+00A0, U+1680,
    U+2000..200A, U+2028, U+2029, U+202F, U+205F, U+3000.  Returns what
    follows it. *)
Definition space_head (s : string) : option string :=
  match s with
  | EmptyString => None
  | String a t =>
      if in_range 9 13 a || in_range 28 32 a then Some t
      else
        match t with
        | EmptyString => None
        | String b t1 =>
            if N.eqb (byte a) 194 then
              if N.eqb (byte b) 133 || N.eqb (byte b) 160 then Some t1 else None
            else
              match t1 with
              | EmptyString => None
              | String c t2 =>
                  if N.eqb (byte a) 225 then
                    if N.eqb (byte b) 154 && N.eqb (byte c) 128 then Some t2 else None
                  else if N.eqb (byte a) 226 then
                    if N.eqb (byte b) 128
                       && (in_range 128 138 c || in_range 168 169 c
                           || N.eqb (byte c) 175)
                    then Some t2
                    else if N.eqb (byte b) 129 && N.eqb (byte c) 159 then Some t2
                    else None
                  else if N.eqb (byte a) 227 then
                    if N.eqb (byte b) 128 && N.eqb (byte c) 128 then Some t2 else None
                  else None
              end
        end
  end.

Fixpoint lstrip_fuel (n : nat) (s : string) : string :=
  match n with
  | O => s
  | S n' =>
      match space_head s with
      | Some t => lstrip_fuel n' t
      | None => s
      end
  end.

Definition str_lstrip (s : string) : string := lstrip_fuel (String.length s) s.

Definition all_space (s : string) : bool := String.eqb (str_lstrip s) "".

Fixpoint str_rstrip (s : string) : string :=
  match s with
  | EmptyString => EmptyString
  | String a t => if all_space s then EmptyString else String a (str_rstrip t)
  end.

(** [s.strip()] *)
Definition str_strip (s : string) : string := str_rstrip (str_lstrip s).

(** ** The world the code runs in *)

Inductive host_action : Type :=
| HostIdle
| HostPut (bytes : string)
| HostRemove.

(** What [float(...)] makes of a setting: a finite time, in clock units,
    or one of the values that are no time at all ([float] accepts the
    texts "inf", "-inf" and "nan"). *)
Inductive pyfloat : Type :=
| Finite (z : Z)
| PosInf
| NegInf
| NaN.

(** [x < y] for a finite [x]: nothing is below [nan] or [-inf], everything
    finite is below [inf]. *)
Definition lt_float (x : Z) (y : pyfloat) : bool :=
  match y with
  | Finite z => x <? z
  | PosInf => true
  | NegInf | NaN => false
  end.

(** The module-level constants ([IPC_DIR], [POLL_INTERVAL], [TIMEOUT], read
    from the process environment at import time) and everything the
    operating system and the listener decide. *)
Class Env : Type := {
  IPC_DIR : string;
  POLL_INTERVAL : pyfloat;
  TIMEOUT : pyfloat;
  win32 : bool;                  (* sys.platform == "win32" *)
  fault : nat -> option string;  (* the call at this tick fails with OSError *)
  host : nat -> host_action;     (* the listener, just before the call at this tick *)
  elapsed : nat -> Z;            (* monotonic time the call at this tick takes *)
  uuid4 : nat -> string;         (* str(uuid.uuid4()) drawn at this tick *)
  mkstemp_name : nat -> string;  (* random part of the name mkstemp draws *)
  io_buffer : nat                (* bytes the text writer hands over per write *)
}.

(** The JSON library: [json.loads], [json.dumps(obj)] (what [json.dump]
    writes) and [json.dumps(obj, indent=2)]. *)
Class JsonLib : Type := {
  json_loads : string -> res pyval;
  json_dumps : pyval -> string;
  json_dumps_indent2 : pyval -> string
}.

Record world : Type := World {
  files : gmap string string;          (* path -> bytes *)
  now : Z;                             (* the monotonic clock *)
  ticks : nat;                         (* system calls made so far *)
  history : list (gmap string string)  (* the file system after each call, latest first *)
}.

(** A computation: runs in a world, returns or raises, leaves a world. *)
Definition M (A : Type) : Type := world -> res A * world.

Definition ret {A} (a : A) : M A := fun w => (Ret a, w).

Definition raise {A} (e : exn) : M A := fun w => (Raise e, w).

Definition bind {A B} (m : M A) (k : A -> M B) : M B :=
  fun w =>
    match m w with
    | (Ret a, w') => k a w'
    | (Raise e, w') => (Raise e, w')
    end.

Definition lift {A} (r : res A) : M A := fun w => (r, w).

(** [try: m  except <handled>: h] *)
Definition try_except {A} (m : M A) (handled : exn -> bool) (h : exn -> M A) : M A :=
  fun w =>
    match m w with
    | (Ret a, w') => (Ret a, w')
    | (Raise e, w') => if handled e then h e w' else (Raise e, w')
    end.

Declare Scope py_scope.
Delimit Scope py_scope with py.
Notation "x <- m ;; k" := (bind m (fun x => k))
  (at level 100, m at next level, right associativity) : py_scope.
Notation "m ;;; k" := (bind m (fun _ => k))
  (at level 100, right associativity) : py_scope.
Open Scope py_scope.

Definition is_OSError (e : exn) : bool :=
  match e with OSError _ => true | _ => false end.

Definition is_JSONDecodeError_or_OSError (e : exn) : bool :=
  match e with OSError _ | JSONDecodeError => true | _ => false end.

Section SystemCalls.
Context {E : Env}.

Definition CMD_FILE : string := IPC_DIR +:+ "/command.json".
Definition RSP_FILE : string := IPC_DIR +:+ "/response.json".

(** What the listener does to [response.json]. *)
Definition host_apply (a : host_action) (fs : gmap string string)
  : gmap string string :=
  match a with
  | HostIdle => fs
  | HostPut b => <[RSP_FILE := b]> fs
  | HostRemove => delete RSP_FILE fs
  end.

Definition enter (w : world) : gmap string string :=
  host_apply (host (ticks w)) (files w).

Definition leave (w : world) (fs : gmap string string) (dt : Z) : world :=
  {| files := fs;
     now := now w + elapsed (ticks w) + dt;
     ticks := S (ticks w);
     history := fs :: history w |}.

(** A system call that the operating system may refuse. *)
Definition syscall {A} (op : nat -> gmap string string -> res A * gmap string string)
  : M A :=
  fun w =>
    let fs := enter w in
    match fault (ticks w) with
    | Some msg => (Raise (OSError msg), leave w fs 0)
    | None => let '(r, fs') := op (ticks w) fs in (r, leave w fs' 0)
    end.

(** [Path.mkdir(parents=True, exist_ok=True)]; directories themselves are
    not tracked, only whether the call is refused. *)
Definition os_mkdir (p : string) : M unit :=
  syscall (fun _ fs => (Ret tt, fs)).

Definition os_chmod (p : string) : M unit :=
  syscall (fun _ fs => (Ret tt, fs)).

(** [Path.unlink(missing_ok=True)] *)
Definition os_unlink (p : string) : M unit :=
  syscall (fun _ fs => (Ret tt, delete p fs)).

(** [Path.exists()]: a [stat] of the path.  That the path is not there
    is the answer [False]; any other refusal of the [stat] (no permission
    on a directory above, an I/O error) is an [OSError] that [exists]
    passes on. *)
Definition path_exists (p : string) : M bool :=
  syscall (fun _ fs =>
    (Ret (match fs !! p with Some _ => true | None => false end), fs)).

(** [Path.read_text(encoding="utf-8")] *)
Definition read_text (p : string) : M string :=
  syscall (fun _ fs =>
    match fs !! p with
    | None => (Raise (OSError "No such file or directory"), fs)
    | Some b =>
        if utf8_valid b then (Ret (universal_newlines b), fs)
        else (Raise UnicodeDecodeError, fs)
    end).

(** [tempfile.mkstemp(dir=d, suffix=".tmp")]: a new, empty file. *)
Definition mkstemp (d : string) : M string :=
  syscall (fun k fs =>
    let p := d +:+ "/tmp" +:+ mkstemp_name k +:+ ".tmp" in
    match fs !! p with
    | Some _ => (Raise (OSError "No usable temporary file name found"), fs)
    | None => (Ret p, <[p := ""]> fs)
    end).

(** Opening a path for writing creates or truncates it. *)
Definition open_w (p : string) : M unit :=
  syscall (fun _ fs => (Ret tt, <[p := ""]> fs)).

(** One write of the buffered writer: the bytes go to the end of the file. *)
Definition write_bytes (p : string) (b : string) : M unit :=
  syscall (fun _ fs =>
    (Ret tt, <[p := match fs !! p with Some old => old +:+ b | None => b end]> fs)).

(** [os.replace(src, dst)]: one step. *)
Definition os_replace (src dst : string) : M unit :=
  syscall (fun _ fs =>
    match fs !! src with
    | None => (Raise (OSError "No such file or directory"), fs)
    | Some b => (Ret tt, <[dst := b]> (delete src fs))
    end).

(** [time.monotonic()] *)
Definition time_monotonic : M Z :=
  fun w => let w' := leave w (enter w) 0 in (Ret (now w'), w').

(** [time.sleep(secs)]: refuses a negative length and [nan] with
    [ValueError], an infinite one with [OverflowError]; otherwise lasts
    at least [secs]. *)
Definition time_sleep (secs : pyfloat) : M unit :=
  fun w =>
    match secs with
    | Finite z =>
        if z <? 0 then (Raise ValueError, w)
        else (Ret tt, leave w (enter w) z)
    | NaN => (Raise ValueError, w)
    | PosInf | NegInf => (Raise OverflowError, w)
    end.

(** [str(uuid.uuid4())] *)
Definition new_uuid : M string :=
  fun w => (Ret (uuid4 (ticks w)), leave w (enter w) 0).

(** Text mode: what reaches the file for a string written to it. *)
Definition text_encode (s : string) : string := if win32 then crlf s else s.

(** The text, cut into the pieces the writer hands to the operating system. *)
Fixpoint chunks (fuel : nat) (s : string) : list string :=
  match fuel with
  | O => []
  | S n =>
      match s with
      | EmptyString => []
      | _ =>
          let k := Nat.max 1 io_buffer in
          String.substring 0 k s
            :: chunks n (String.substring k (String.length s - k) s)
      end
  end.

Fixpoint write_chunks (p : string) (cs : list string) : M unit :=
  match cs with
  | [] => ret tt
  | c :: cs' => write_bytes p c ;;; write_chunks p cs'
  end.

(** Writing a whole text to an open file, closed at the end. *)
Definition write_all (p : string) (s : string) : M unit :=
  let b := text_encode s in write_chunks p (chunks (String.length b) b).

(** [Path.write_text(s, encoding="utf-8")] *)
Definition write_text (p : string) (s : string) : M unit :=
  open_w p ;;; write_all p s.

End SystemCalls.

(** ** The program *)

Definition nl : string := String "010"%char EmptyString.

(** [str(e)] for the exception bound by [except OSError as e]. *)
Definition exn_str (e : exn) : string :=
  match e with
  | OSError msg => msg
  | OtherError name => name
  | _ => ""
  end.

(** [key_path[-1]] *)
Definition py_last (key_path : list string) : res string :=
  match key_path with
  | [] => Raise IndexError
  | _ => Ret (List.last key_path "")
  end.

(** The body of [merge_json_config] between reading and writing.  In the
    source [current] walks down [config] along [key_path[:-1]], creating the
    missing levels in place, and the last assignment lands in the
    dictionary it has reached; here each level is rebuilt on the way back.
    [None] is the early [return False] ("Already configured"). *)
Fixpoint merge_into (current : pyval) (keys : list string) (final_key : string)
    (value : pyval) : res (option pyval) :=
  match keys with
  | [] =>
      present <~ py_contains final_key current ;;
      same <~ (if present then
                 x <~ py_getitem current final_key ;; Ret (py_eq x value)
               else Ret false) ;;
      if same then Ret None
      else
        current' <~ py_setitem current final_key value ;;
        Ret (Some current')
  | key :: rest =>
      present <~ py_contains key current ;;
      current1 <~ (if negb present then py_setitem current key (PDict [])
                   else Ret current) ;;
      child <~ py_getitem current1 key ;;
      r <~ merge_into child rest final_key value ;;
      match r with
      | None => Ret None
      | Some child' =>
          current2 <~ py_setitem current1 key child' ;;
          Ret (Some current2)
      end
  end.

(** The same for [remove_json_config_key]; [None] is [return False]. *)
Fixpoint remove_from (current : pyval) (keys : list string) (final_key : string)
  : res (option pyval) :=
  match keys with
  | [] =>
      present <~ py_contains final_key current ;;
      if negb present then Ret None
      else
        current' <~ py_delitem current final_key ;;
        Ret (Some current')
  | key :: rest =>
      present <~ py_contains key current ;;
      if negb present then Ret None
      else
        child <~ py_getitem current key ;;
        r <~ remove_from child rest final_key ;;
        match r with
        | None => Ret None
        | Some child' =>
            current' <~ py_setitem current key child' ;;
            Ret (Some current')
        end
  end.

Section Program.
Context {E : Env} {J : JsonLib}.

Definition ensure_ipc_dir : M unit :=
  os_mkdir IPC_DIR ;;;
  if negb win32 then
    try_except (os_chmod IPC_DIR) is_OSError (fun _ => ret tt)
  else ret tt.

(** [{"id": cmd_id, "action": action, "params": params or {}}] *)
Definition envelope (cmd_id action : string) (params : pyval) : pyval :=
  PDict [("id", PStr cmd_id); ("action", PStr action);
         ("params", py_or params (PDict []))].

Definition write_failure (cmd_id : string) (e : exn) : pyval :=
  PDict [("id", PStr cmd_id); ("success", PBool false); ("result", PNone);
         ("error", PStr ("Failed to write command file: " +:+ exn_str e))].

Definition timeout_failure (cmd_id : string) : pyval :=
  PDict [("id", PStr cmd_id); ("success", PBool false); ("result", PNone);
         ("error",
          PStr ("Timeout — REAPER did not respond. "
                +:+ "Make sure reaper_listener.lua is running inside REAPER. "
                +:+ "Run 'python mcp_server.py check' for diagnostics."))].

(** Lines 111-118: the directory, the fresh id, the old response removed. *)
Definition prepare : M string :=
  ensure_ipc_dir ;;;
  cmd_id <- new_uuid ;;
  try_except (os_unlink RSP_FILE) is_OSError (fun _ => ret tt) ;;;
  ret cmd_id.

(** Lines 121-124: the body of the second [try]. *)
Definition publish (cmd : pyval) : M unit :=
  tmp_path <- mkstemp IPC_DIR ;;
  write_all tmp_path (json_dumps cmd) ;;;
  os_replace tmp_path CMD_FILE.

(** Lines 133-141: one pass of the loop body before the sleep; [Some] is
    the [return response]. *)
Definition poll_cycle (cmd_id : string) : M (option pyval) :=
  present <- path_exists RSP_FILE ;;
  if present then
    try_except
      (content <- read_text RSP_FILE ;;
       os_unlink RSP_FILE ;;;
       response <- lift (json_loads content) ;;
       rid <- lift (py_get response "id") ;;
       if py_eq rid (PStr cmd_id) then ret (Some response) else ret None)
      is_JSONDecodeError_or_OSError
      (fun _ => ret None)
  else ret None.

(** Lines 132-151.  [None]: the fuel ran out before the loop ended. *)
Fixpoint poll_loop (fuel : nat) (cmd_id : string) (start : Z) (w : world)
  : option (res pyval * world) :=
  match fuel with
  | O => None
  | S fuel' =>
      match time_monotonic w with
      | (Raise e, w1) => Some (Raise e, w1)
      | (Ret t, w1) =>
          if lt_float (t - start) TIMEOUT then
            match poll_cycle cmd_id w1 with
            | (Raise e, w2) => Some (Raise e, w2)
            | (Ret (Some response), w2) => Some (Ret response, w2)
            | (Ret None, w2) =>
                match time_sleep POLL_INTERVAL w2 with
                | (Raise e, w3) => Some (Raise e, w3)
                | (Ret _, w3) => poll_loop fuel' cmd_id start w3
                end
            end
          else Some (Ret (timeout_failure cmd_id), w1)
      end
  end.

Definition send_command (fuel : nat) (action : string) (params : pyval)
    (w : world) : option (res pyval * world) :=
  match prepare w with
  | (Raise e, w1) => Some (Raise e, w1)
  | (Ret cmd_id, w1) =>
      let cmd := envelope cmd_id action params in
      match publish cmd w1 with
      | (Raise e, w2) =>
          if is_OSError e then Some (Ret (write_failure cmd_id e), w2)
          else Some (Raise e, w2)
      | (Ret _, w2) =>
          match time_monotonic w2 with
          | (Raise e, w3) => Some (Raise e, w3)
          | (Ret start, w3) => poll_loop fuel cmd_id start w3
          end
      end
  end.

(** *** The installer's configuration files *)

(** [path.parent.mkdir(parents=True, exist_ok=True)] *)
Definition mkdir_parent (path : string) : M unit := os_mkdir path.

(** Lines 164-173; [None] is the [return False] of the handler. *)
Definition load_config (path : string) : M (option pyval) :=
  present <- path_exists path ;;
  if present then
    try_except
      (text <- read_text path ;;
       if py_truthy (PStr (str_strip text)) then
         config <- lift (json_loads text) ;;
         ret (Some config)
       else ret (Some (PDict [])))
      is_JSONDecodeError_or_OSError
      (fun _ => ret None)
  else ret (Some (PDict [])).

(** For an empty [key_path] the loop over [key_path[:-1]] does nothing and
    [key_path[-1]] raises, so taking the last key first changes nothing. *)
Definition merge_json_config (path : string) (key_path : list string)
    (value : pyval) : M bool :=
  loaded <- load_config path ;;
  match loaded with
  | None => ret false
  | Some config =>
      final_key <- lift (py_last key_path) ;;
      merged <- lift (merge_into config (removelast key_path) final_key value) ;;
      match merged with
      | None => ret false
      | Some config' =>
          mkdir_parent path ;;;
          write_text path (json_dumps_indent2 config' +:+ nl) ;;;
          ret true
      end
  end.

Definition remove_json_config_key (path : string) (key_path : list string)
  : M bool :=
  present <- path_exists path ;;
  if negb present then ret false
  else
    loaded <- try_except
                (text <- read_text path ;;
                 config <- lift (json_loads text) ;;
                 ret (Some config))
                is_JSONDecodeError_or_OSError
                (fun _ => ret None) ;;
    match loaded with
    | None => ret false
    | Some config =>
        final_key <- lift (py_last key_path) ;;
        removed <- lift (remove_from config (removelast key_path) final_key) ;;
        match removed with
        | None => ret false
        | Some config' =>
            write_text path (json_dumps_indent2 config' +:+ nl) ;;;
            ret true
        end
    end.

End Program.

(** ** An executable [json] module

    [json.dumps] as Python writes it (ensure_ascii, separators ", " and
    ": ", or "," and ": " with [indent=2]) and [json.loads].  A text that
    [json.loads] rejects is rejected here in the same way, with
    [JSONDecodeError], with [ValueError] for an integer of more than 4300
    digits, or with [RecursionError] when it nests deeper than the
    interpreter allows.  A text that it accepts is read to the same
    value, unless it holds a number with a fraction or an exponent or one
    of the constants NaN and Infinity: a Python float has no image among
    the values of the model, and such a text lands in
    [OtherError "float"]. *)

Module PyJson.

Definition quote : ascii := "034"%char.
Definition backslash : ascii := "092"%char.

Definition hex_digit (n : N) : ascii :=
  ascii_of_N (if N.ltb n 10 then 48 + n else 87 + n)%N.

Definition hex4 (n : N) : string :=
  String (hex_digit (N.modulo (N.div n 4096) 16))
    (String (hex_digit (N.modulo (N.div n 256) 16))
       (String (hex_digit (N.modulo (N.div n 16) 16))
          (String (hex_digit (N.modulo n 16)) EmptyString))).

(** "\uXXXX", with a surrogate pair above U+FFFF. *)
Definition escape_code_point (cp : N) : string :=
  if N.ltb cp 65536 then String backslash ("u" +:+ hex4 cp)
  else
    let v := (cp - 65536)%N in
    String backslash ("u" +:+ hex4 (55296 + N.div v 1024)%N)
    +:+ String backslash ("u" +:+ hex4 (56320 + N.modulo v 1024)%N).

Definition low6 (a : ascii) : N := N.modulo (byte a) 64.

Fixpoint escape_str (s : string) : string :=
  match s with
  | EmptyString => EmptyString
  | String a t =>
      let b := byte a in
      if N.eqb b 34 then String backslash (String quote (escape_str t))
      else if N.eqb b 92 then String backslash (String backslash (escape_str t))
      else if N.eqb b 10 then String backslash (String "n" (escape_str t))
      else if N.eqb b 13 then String backslash (String "r" (escape_str t))
      else if N.eqb b 9 then String backslash (String "t" (escape_str t))
      else if N.eqb b 8 then String backslash (String "b" (escape_str t))
      else if N.eqb b 12 then String backslash (String "f" (escape_str t))
      else if in_range 32 126 a then String a (escape_str t)
      else if N.ltb b 128 then escape_code_point b +:+ escape_str t
      else if N.ltb b 224 then
        match t with
        | String c1 t1 =>
            escape_code_point (N.modulo b 32 * 64 + low6 c1) +:+ escape_str t1
        | _ => escape_code_point b
        end
      else if N.ltb b 240 then
        match t with
        | String c1 (String c2 t2) =>
            escape_code_point (N.modulo b 16 * 4096 + low6 c1 * 64 + low6 c2)
            +:+ escape_str t2
        | _ => escape_code_point b
        end
      else
        match t with
        | String c1 (String c2 (String c3 t3)) =>
            escape_code_point
              (N.modulo b 8 * 262144 + low6 c1 * 4096 + low6 c2 * 64 + low6 c3)
            +:+ escape_str t3
        | _ => escape_code_point b
        end
  end.

Definition dumps_str (s : string) : string :=
  String quote (escape_str s +:+ String quote EmptyString).

Fixpoint digits_of_pos_fuel (fuel : nat) (n : N) (acc : string) : string :=
  match fuel with
  | O => acc
  | S f =>
      let acc' := String (ascii_of_N (48 + N.modulo n 10)) acc in
      if N.ltb n 10 then acc' else digits_of_pos_fuel f (N.div n 10) acc'
  end.

Definition dumps_int (z : Z) : string :=
  let n := Z.abs_N z in
  let ds := digits_of_pos_fuel (S (N.to_nat (N.log2 n))) n EmptyString in
  if z <? 0 then String "-" ds else ds.

Fixpoint spaces (n : nat) : string :=
  match n with
  | O => EmptyString
  | S n' => String " " (spaces n')
  end.

(** [indent = None]: one line; [indent = Some k]: a line per item, [k]
    spaces per level. *)
Definition newline_indent (indent : option nat) (level : nat) : string :=
  match indent with
  | None => EmptyString
  | Some k => nl +:+ spaces (k * level)
  end.

Definition item_separator (indent : option nat) (level : nat) : string :=
  match indent with
  | None => ", "
  | Some _ => "," +:+ newline_indent indent level
  end.

Fixpoint dumps_at (indent : option nat) (level : nat) (v : pyval) : string :=
  match v with
  | PNone => "null"
  | PBool true => "true"
  | PBool false => "false"
  | PInt z => dumps_int z
  | PStr s => dumps_str s
  | PList [] => "[]"
  | PList (x :: xs) =>
      "[" +:+ newline_indent indent (S level)
      +:+ dumps_at indent (S level) x
      +:+ (fix rest (l : list pyval) : string :=
             match l with
             | [] => EmptyString
             | y :: l' =>
                 item_separator indent (S level)
                 +:+ dumps_at indent (S level) y +:+ rest l'
             end) xs
      +:+ newline_indent indent level +:+ "]"
  | PDict [] => "{}"
  | PDict ((k, x) :: xs) =>
      "{" +:+ newline_indent indent (S level)
      +:+ dumps_str k +:+ ": " +:+ dumps_at indent (S level) x
      +:+ (fix rest (l : list (string * pyval)) : string :=
             match l with
             | [] => EmptyString
             | (k', y) :: l' =>
                 item_separator indent (S level)
                 +:+ dumps_str k' +:+ ": "
                 +:+ dumps_at indent (S level) y +:+ rest l'
             end) xs
      +:+ newline_indent indent level +:+ "}"
  end.

Definition dumps (v : pyval) : string := dumps_at None 0 v.
Definition dumps_indent2 (v : pyval) : string := dumps_at (Some 2%nat) 0 v.

(** *** The decoder *)

Definition is_ws (a : ascii) : bool :=
  let b := byte a in
  N.eqb b 32 || N.eqb b 9 || N.eqb b 10 || N.eqb b 13.

Fixpoint skip_ws (s : string) : string :=
  match s with
  | EmptyString => EmptyString
  | String a t => if is_ws a then skip_ws t else s
  end.

Definition hex_value (a : ascii) : option N :=
  let b := byte a in
  if in_range 48 57 a then Some (b - 48)%N
  else if in_range 97 102 a then Some (b - 87)%N
  else if in_range 65 70 a then Some (b - 55)%N
  else None.

Definition read_hex4 (s : string) : option (N * string) :=
  match s with
  | String a (String b (String c (String d t))) =>
      match hex_value a, hex_value b, hex_value c, hex_value d with
      | Some x, Some y, Some z, Some u =>
          Some ((x * 4096 + y * 256 + z * 16 + u)%N, t)
      | _, _, _, _ => None
      end
  | _ => None
  end.

Definition utf8_encode (cp : N) : string :=
  if N.ltb cp 128 then String (ascii_of_N cp) EmptyString
  else if N.ltb cp 2048 then
    String (ascii_of_N (192 + N.div cp 64))
      (String (ascii_of_N (128 + N.modulo cp 64)) EmptyString)
  else if N.ltb cp 65536 then
    String (ascii_of_N (224 + N.div cp 4096))
      (String (ascii_of_N (128 + N.modulo (N.div cp 64) 64))
         (String (ascii_of_N (128 + N.modulo cp 64)) EmptyString))
  else
    String (ascii_of_N (240 + N.div cp 262144))
      (String (ascii_of_N (128 + N.modulo (N.div cp 4096) 64))
         (String (ascii_of_N (128 + N.modulo (N.div cp 64) 64))
            (String (ascii_of_N (128 + N.modulo cp 64)) EmptyString))).

Definition is_high_surrogate (cp : N) : bool := N.leb 55296 cp && N.leb cp 56319.
Definition is_low_surrogate (cp : N) : bool := N.leb 56320 cp && N.leb cp 57343.

(** The text after an opening quote, up to the closing one. *)
Fixpoint parse_string (fuel : nat) (s : string) : res (string * string) :=
  match fuel with
  | O => Raise JSONDecodeError
  | S f =>
      match s with
      | EmptyString => Raise JSONDecodeError
      | String a t =>
          let b := byte a in
          if N.eqb b 34 then Ret (EmptyString, t)
          else if N.eqb b 92 then
            match t with
            | EmptyString => Raise JSONDecodeError
            | String e t' =>
                let plain (c : ascii) :=
                  r <~ parse_string f t' ;; Ret (String c (fst r), snd r) in
                let eb := byte e in
                if N.eqb eb 34 then plain quote
                else if N.eqb eb 92 then plain backslash
                else if N.eqb eb 47 then plain "/"%char
                else if N.eqb eb 98 then plain "008"%char
                else if N.eqb eb 102 then plain "012"%char
                else if N.eqb eb 110 then plain "010"%char
                else if N.eqb eb 114 then plain "013"%char
                else if N.eqb eb 116 then plain "009"%char
                else if N.eqb eb 117 then
                  match read_hex4 t' with
                  | None => Raise JSONDecodeError
                  | Some (cp, t1) =>
                      let single :=
                        if is_high_surrogate cp || is_low_surrogate cp
                        then Raise (OtherError "lone surrogate")
                        else r <~ parse_string f t1 ;;
                             Ret (utf8_encode cp +:+ fst r, snd r) in
                      if is_high_surrogate cp then
                        match t1 with
                        | String b1 (String b2 t2) =>
                            if N.eqb (byte b1) 92 && N.eqb (byte b2) 117 then
                              match read_hex4 t2 with
                              | Some (lo, t3) =>
                                  if is_low_surrogate lo then
                                    r <~ parse_string f t3 ;;
                                    Ret (utf8_encode
                                           (65536 + (cp - 55296) * 1024
                                            + (lo - 56320))%N
                                         +:+ fst r, snd r)
                                  else single
                              | None => single
                              end
                            else single
                        | _ => single
                        end
                      else single
                  end
                else Raise JSONDecodeError
            end
          else if N.ltb b 32 then Raise JSONDecodeError
          else r <~ parse_string f t ;; Ret (String a (fst r), snd r)
      end
  end.

Definition is_digit (a : ascii) : bool := in_range 48 57 a.

Fixpoint take_digits (s : string) : string * string :=
  match s with
  | EmptyString => (EmptyString, EmptyString)
  | String a t =>
      if is_digit a then let '(d, r) := take_digits t in (String a d, r)
      else (EmptyString, s)
  end.

Fixpoint digits_value (s : string) (acc : Z) : Z :=
  match s with
  | EmptyString => acc
  | String a t => digits_value t (10 * acc + Z.of_N (byte a - 48))
  end.

(** The integer part, "0" or a digit string without a leading zero. *)
Definition take_int (s : string) : option (string * string) :=
  match s with
  | EmptyString => None
  | String a t =>
      if N.eqb (byte a) 48 then Some (String a EmptyString, t)
      else if is_digit a then Some (take_digits s)
      else None
  end.

(** The rest after a fraction, a point and at least one digit. *)
Definition skip_frac (s : string) : option string :=
  match s with
  | String a (String d t) =>
      if N.eqb (byte a) 46 && is_digit d then Some (snd (take_digits t))
      else None
  | _ => None
  end.

(** The rest after an exponent: e or E, a sign or none, at least one
    digit. *)
Definition skip_exp (s : string) : option string :=
  match s with
  | String a t =>
      if N.eqb (byte a) 101 || N.eqb (byte a) 69 then
        let u := match t with
                 | String sg t' =>
                     if N.eqb (byte sg) 43 || N.eqb (byte sg) 45 then t' else t
                 | EmptyString => t
                 end in
        match u with
        | String d t' => if is_digit d then Some (snd (take_digits t')) else None
        | EmptyString => None
        end
      else None
  | EmptyString => None
  end.

(** A value that is a float: skipped when [floats] is set, to see whether
    the rest of the text is well-formed. *)
Definition float_value (floats : bool) (rest : string) : res (pyval * string) :=
  if floats then Ret (PNone, rest) else Raise (OtherError "float").

Definition parse_number (floats : bool) (s : string) : res (pyval * string) :=
  let '(neg, body) :=
    match s with
    | String a t => if N.eqb (byte a) 45 then (true, t) else (false, s)
    | _ => (false, s)
    end in
  match take_int body with
  | None => Raise JSONDecodeError
  | Some (ds, r) =>
      let r1 := match skip_frac r with Some u => u | None => r end in
      match skip_frac r, skip_exp r1 with
      | None, None =>
          if (4300 <? String.length ds)%nat then Raise ValueError
          else
            let n := digits_value ds 0 in
            Ret (PInt (if neg then - n else n), r)
      | _, Some r2 => float_value floats r2
      | Some _, None => float_value floats r1
      end
  end.

Definition expect (lit : string) (v : pyval) (s : string) : res (pyval * string) :=
  if String.prefix lit s
  then Ret (v, String.substring (String.length lit)
                 (String.length s - String.length lit) s)
  else Raise JSONDecodeError.

(** A constant that is a float. *)
Definition expect_float (floats : bool) (lit : string) (s : string)
  : res (pyval * string) :=
  if String.prefix lit s
  then float_value floats
         (String.substring (String.length lit)
            (String.length s - String.length lit) s)
  else Raise JSONDecodeError.

(** [depth]: the levels of lists and objects that may still be opened. *)
Fixpoint parse_value (floats : bool) (fuel depth : nat) (s : string)
  : res (pyval * string) :=
  match fuel with
  | O => Raise JSONDecodeError
  | S f =>
      match s with
      | EmptyString => Raise JSONDecodeError
      | String a t =>
          let b := byte a in
          if N.eqb b 34 then
            r <~ parse_string (String.length t) t ;; Ret (PStr (fst r), snd r)
          else if N.eqb b 123 then
            match depth with
            | O => Raise RecursionError
            | S d =>
                match skip_ws t with
                | String c t' =>
                    if N.eqb (byte c) 125 then Ret (PDict [], t')
                    else parse_members floats f d (skip_ws t) []
                | EmptyString => Raise JSONDecodeError
                end
            end
          else if N.eqb b 91 then
            match depth with
            | O => Raise RecursionError
            | S d =>
                match skip_ws t with
                | String c t' =>
                    if N.eqb (byte c) 93 then Ret (PList [], t')
                    else parse_elems floats f d (skip_ws t) []
                | EmptyString => Raise JSONDecodeError
                end
            end
          else if N.eqb b 110 then expect "null" PNone s
          else if N.eqb b 116 then expect "true" (PBool true) s
          else if N.eqb b 102 then expect "false" (PBool false) s
          else if N.eqb b 78 then expect_float floats "NaN" s
          else if N.eqb b 73 then expect_float floats "Infinity" s
          else if N.eqb b 45 && String.prefix "-Infinity" s then
            expect_float floats "-Infinity" s
          else parse_number floats s
      end
  end

(** [s] starts at an element; [acc] holds the elements read, latest first. *)
with parse_elems (floats : bool) (fuel depth : nat) (s : string)
    (acc : list pyval) : res (pyval * string) :=
  match fuel with
  | O => Raise JSONDecodeError
  | S f =>
      r <~ parse_value floats f depth s ;;
      match skip_ws (snd r) with
      | String c t =>
          if N.eqb (byte c) 93 then Ret (PList (rev (fst r :: acc)), t)
          else if N.eqb (byte c) 44 then
            parse_elems floats f depth (skip_ws t) (fst r :: acc)
          else Raise JSONDecodeError
      | EmptyString => Raise JSONDecodeError
      end
  end

(** [s] starts at a key; [acc] is the dictionary built so far. *)
with parse_members (floats : bool) (fuel depth : nat) (s : string)
    (acc : list (string * pyval)) : res (pyval * string) :=
  match fuel with
  | O => Raise JSONDecodeError
  | S f =>
      match s with
      | String q t =>
          if N.eqb (byte q) 34 then
            k <~ parse_string (String.length t) t ;;
            match skip_ws (snd k) with
            | String c t1 =>
                if N.eqb (byte c) 58 then
                  r <~ parse_value floats f depth (skip_ws t1) ;;
                  let acc' := dict_set (fst k) (fst r) acc in
                  match skip_ws (snd r) with
                  | String c' t2 =>
                      if N.eqb (byte c') 125 then Ret (PDict acc', t2)
                      else if N.eqb (byte c') 44 then
                        parse_members floats f depth (skip_ws t2) acc'
                      else Raise JSONDecodeError
                  | EmptyString => Raise JSONDecodeError
                  end
                else Raise JSONDecodeError
            | EmptyString => Raise JSONDecodeError
            end
          else Raise JSONDecodeError
      | EmptyString => Raise JSONDecodeError
      end
  end.

(** The whole text is one value between white space. *)
Definition parse_text (floats : bool) (depth : nat) (s : string) : res pyval :=
  r <~ parse_value floats (S (String.length s)) depth (skip_ws s) ;;
  match skip_ws (snd r) with
  | EmptyString => Ret (fst r)
  | _ => Raise JSONDecodeError
  end.

(** The levels of nesting after which the interpreter gives up.  The
    number is the interpreter's and depends on how deep the call itself
    is; 1000 is CPython's default recursion limit. *)
Definition recursion_limit : nat := 1000.

(** The text is read once with its floats skipped, which finds what
    [json.loads] finds wrong with it, and then for its value. *)
Definition loads_within (depth : nat) (s : string) : res pyval :=
  match parse_text true depth s with
  | Raise e => Raise e
  | Ret _ => parse_text false depth s
  end.

Definition loads (s : string) : res pyval := loads_within recursion_limit s.

#[export] Instance lib : JsonLib :=
  {| json_loads := loads; json_dumps := dumps; json_dumps_indent2 := dumps_indent2 |}.

End PyJson.

(** ** Concrete environments, for the examples

    Times in milliseconds: a 30 ms poll interval and a 200 ms timeout.
    Calls take no time of their own, [mkstemp] always draws the same
    name, and the caller chooses what the listener does and which calls
    the operating system refuses. *)

Module Demo.

Definition env (h : nat -> host_action) (f : nat -> option string) : Env :=
  {| IPC_DIR := "/home/u/.reaper-mcp";
     POLL_INTERVAL := Finite 30;
     TIMEOUT := Finite 200;
     win32 := false;
     fault := f;
     host := h;
     elapsed := fun _ => 0;
     uuid4 := fun _ => "1b4e28ba-2fa1-41d2-883f-0016d3cca427";
     mkstemp_name := fun _ => "k3x9_q1z";
     io_buffer := 8 * 1024 |}.

Definition idle : nat -> host_action := fun _ => HostIdle.

Definition no_fault : nat -> option string := fun _ => None.

(** The listener acts once, at tick [k]. *)
Definition at_tick (k : nat) (a : host_action) : nat -> host_action :=
  fun i => if Nat.eqb i k then a else HostIdle.

(** The operating system refuses the call at tick [k]. *)
Definition fault_at (k : nat) (msg : string) : nat -> option string :=
  fun i => if Nat.eqb i k then Some msg else None.

Definition world_with (fs : gmap string string) : world :=
  {| files := fs; now := 0; ticks := 0; history := [] |}.

Definition boot : world := world_with ∅.

Definition outcome {A} (o : option (res A * world)) : res A :=
  match o with
  | Some (r, _) => r
  | None => Raise (OtherError "out of fuel")
  end.

Definition outcome_value (o : option (res pyval * world)) : pyval :=
  match o with
  | Some (Ret v, _) => v
  | _ => PNone
  end.

Definition final (o : option (res pyval * world)) : world :=
  match o with
  | Some (_, w) => w
  | None => boot
  end.

(** A response as the listener writes it. *)
Definition response_bytes (id : string) : string :=
  PyJson.dumps (PDict [("id", PStr id); ("success", PBool true);
                       ("result", PDict [("ok", PBool true)])]).

(** Nobody answers and nothing fails. *)
Definition quiet : Env := env idle no_fault.

(** The disk is full when [mkstemp] is called (the fifth system call). *)
Definition disk_full : Env :=
  env idle (fault_at 4 "[Errno 28] No space left on device").

(** The directory cannot be created (the first system call). *)
Definition mkdir_refused : Env :=
  env idle (fault_at 0 "[Errno 13] Permission denied").

(** The listener answers with the JSON text of an empty list, just before
    the first look at the response path (the tenth system call). *)
Definition list_reply : Env := env (at_tick 9 (HostPut "[]")) no_fault.

(** The listener answers with the JSON text null. *)
Definition null_reply : Env := env (at_tick 9 (HostPut "null")) no_fault.

(** The response is read while its last character, a two-byte one, is
    half written. *)
Definition half_written_reply : Env :=
  env (at_tick 9 (HostPut (String "123"%char (String "195"%char EmptyString))))
    no_fault.

(** The listener has written the first character of a response when the
    poll loop first looks (the second system call of the loop). *)
Definition partial_reply : Env := env (at_tick 1 (HostPut "{")) no_fault.

(** A response to an earlier call is lying in the directory. *)
Definition old_id : string := "7d1f6e0c-55aa-4c1b-9e3e-2f0b8a6c9d10".

Definition leftover : world :=
  world_with {[ @RSP_FILE quiet := response_bytes old_id ]}.

(** The listener answers the call, just before the first look at the
    response path. *)
Definition answering : Env :=
  env (at_tick 9 (HostPut (response_bytes "1b4e28ba-2fa1-41d2-883f-0016d3cca427")))
    no_fault.

(** The installer's files and the entry it merges into them. *)
Definition claude_code_config : string := "/home/u/.claude/mcp_servers.json".

Definition claude_desktop_config : string :=
  "/home/u/.config/Claude/claude_desktop_config.json".

Definition server_entry : pyval :=
  PDict [("command", PStr "/opt/cleaper/.venv/bin/python");
         ("args", PList [PStr "/opt/cleaper/mcp_server.py"])].

Definition empty_desktop_config : world :=
  world_with {[ claude_desktop_config := "{}" +:+ nl ]}.

Definition broken_code_config : world :=
  world_with {[ claude_code_config := "{oops" ]}.

Definition blank_code_config : world :=
  world_with {[ claude_code_config := " " ]}.

End Demo.

(** ** Predicates on runs *)

Fixpoint concat_str (l : list string) : string :=
  match l with
  | [] => EmptyString
  | s :: l' => s +:+ concat_str l'
  end.

(** The snapshots added between [w] and [w'] all satisfy [I]. *)
Definition grows (I : gmap string string -> Prop) (w w' : world) : Prop :=
  exists new, history w' = (new ++ history w)%list /\ Forall I new.

(** Path [p] holds the same bytes in [w'], and held them all the way. *)
Definition same_at (p : string) (w w' : world) : Prop :=
  files w' !! p = files w !! p
  /\ grows (fun fs => fs !! p = files w !! p) w w'.

Definition frames (p : string) {A} (m : M A) : Prop :=
  forall w r w', m w = (r, w') -> same_at p w w'.

(** After a system call the latest snapshot is the current state. *)
Definition headed (w : world) : Prop :=
  exists rest, history w = files w :: rest.


Section RunPredicates.
Context {E : Env} {J : JsonLib}.

(** What one pass of the loop does with the bytes it has read and unlinked. *)
Definition after_parse (cmd_id : string) (b : string) (w : world)
  : res (option pyval) * world :=
  match json_loads (universal_newlines b) with
  | Raise e =>
      if is_JSONDecodeError_or_OSError e then (Ret None, w) else (Raise e, w)
  | Ret response =>
      match py_get response "id" with
      | Raise e =>
          if is_JSONDecodeError_or_OSError e then (Ret None, w) else (Raise e, w)
      | Ret rid =>
          if py_eq rid (PStr cmd_id) then (Ret (Some response), w)
          else (Ret None, w)
      end
  end.



(** The bytes read as a response [v] whose id is [cmd_id]. *)
Definition answers (cmd_id : string) (b : string) (v : pyval) : Prop :=
  json_loads (universal_newlines b) = Ret v
  /\ exists rid, py_get v "id" = Ret rid /\ py_eq rid (PStr cmd_id) = true.


(** The bytes are a JSON object whose id is not [cmd_id]. *)
Definition stale (cmd_id : string) (b : string) : Prop :=
  utf8_valid b = true
  /\ exists d rid,
       json_loads (universal_newlines b) = Ret (PDict d)
       /\ py_get (PDict d) "id" = Ret rid
       /\ py_eq rid (PStr cmd_id) = false.

End RunPredicates.

Section InstallerPredicates.
Context {E : Env} {J : JsonLib}.

(** The installer runs alone: no call is refused and the listener is idle. *)
Definition calm : Prop := forall k, fault k = None /\ host k = HostIdle.

(** What [load_config] makes of the bytes at the path on a calm system;
    [Ret None] is its [return False]. *)
Definition config_of (content : option string) : res (option pyval) :=
  match content with
  | None => Ret (Some (PDict []))
  | Some b =>
      if utf8_valid b then
        let text := universal_newlines b in
        if py_truthy (PStr (str_strip text)) then
          match json_loads text with
          | Ret config => Ret (Some config)
          | Raise e =>
              if is_JSONDecodeError_or_OSError e then Ret None else Raise e
          end
        else Ret (Some (PDict []))
      else Raise UnicodeDecodeError
  end.

(** The bytes [write_text] leaves for a configuration. *)
Definition config_bytes (c : pyval) : string :=
  text_encode (json_dumps_indent2 c +:+ nl).

(** The [json] module reads back the configuration it has written. *)
Definition round_trips (c : pyval) : Prop :=
  utf8_valid (config_bytes c) = true
  /\ py_truthy (PStr (str_strip (universal_newlines (config_bytes c)))) = true
  /\ json_loads (universal_newlines (config_bytes c)) = Ret c.

(** What [merge_json_config] writes, if it writes: [Ret None] is its
    [return False]. *)
Definition merge_effect (content : option string) (key_path : list string)
    (value : pyval) : res (option pyval) :=
  loaded <~ config_of content ;;
  match loaded with
  | None => Ret None
  | Some config =>
      final_key <~ py_last key_path ;;
      merge_into config (removelast key_path) final_key value
  end.

(** The same for [remove_json_config_key], for a path that exists. *)
Definition remove_effect (b : string) (key_path : list string)
  : res (option pyval) :=
  if utf8_valid b then
    match json_loads (universal_newlines b) with
    | Ret config =>
        final_key <~ py_last key_path ;;
        remove_from config (removelast key_path) final_key
    | Raise e => if is_JSONDecodeError_or_OSError e then Ret None else Raise e
    end
  else Raise UnicodeDecodeError.

End InstallerPredicates.

(** Every key of the path but the last leads to a dictionary that is
    there, and the last key is not in the dictionary they lead to. *)
Fixpoint fresh_leaf (c : pyval) (keys : list string) (final_key : string) : bool :=
  match c with
  | PDict d =>
      match keys with
      | [] => negb (dict_has final_key d)
      | key :: rest =>
          match dict_get key d with
          | Some child => fresh_leaf child rest final_key
          | None => false
          end
      end
  | _ => false
  end.

(** Induction on Python values, through their lists and dictionaries. *)
Section PyvalInd.
Variable P : pyval -> Prop.
Hypothesis HNone : P PNone.
Hypothesis HBool : forall b, P (PBool b).
Hypothesis HInt : forall z, P (PInt z).
Hypothesis HStr : forall s, P (PStr s).
Hypothesis HList : forall l, Forall P l -> P (PList l).
Hypothesis HDict : forall d, Forall (fun kv => P (snd kv)) d -> P (PDict d).

Fixpoint pyval_nested_ind (v : pyval) : P v :=
  match v with
  | PNone => HNone
  | PBool b => HBool b
  | PInt z => HInt z
  | PStr s => HStr s
  | PList l =>
      HList l
        ((fix go (l : list pyval) : Forall P l :=
            match l with
            | [] => @List.Forall_nil _ P
            | x :: l' => @List.Forall_cons _ P x l' (pyval_nested_ind x) (go l')
            end) l)
  | PDict d =>
      HDict d
        ((fix go (d : list (string * pyval)) : Forall (fun kv => P (snd kv)) d :=
            match d with
            | [] => @List.Forall_nil _ _
            | kv :: d' =>
                @List.Forall_cons _ (fun kv => P (snd kv)) kv d'
                  (pyval_nested_ind (snd kv)) (go d')
            end) d)
  end.
End PyvalInd.


(** ** Key paths *)

(** The value a key path leads to, through dictionaries only. *)
Fixpoint get_path (c : pyval) (keys : list string) : option pyval :=
  match keys with
  | [] => Some c
  | key :: rest =>
      match c with
      | PDict d =>
          match dict_get key d with
          | Some child => get_path child rest
          | None => None
          end
      | _ => None
      end
  end.

(** ** The quick ping of the setup check *)

Section QuickPing.
Context {E : Env} {J : JsonLib}.

(** The length of 0.05 s in clock units; the loop of [_quick_ping] sleeps
    0.05 s and gives up after 2.0 s, forty times as long. *)
Variable fifty_ms : Z.

(** [{"success": False}] *)
Definition no_success : pyval := PDict [("success", PBool false)].

(** Lines 468-484; the body of the loop is that of [send_command]. *)
Fixpoint quick_ping_loop (fuel : nat) (cmd_id : string) (start : Z) (w : world)
  : option (res pyval * world) :=
  match fuel with
  | O => None
  | S fuel' =>
      match time_monotonic w with
      | (Raise e, w1) => Some (Raise e, w1)
      | (Ret t, w1) =>
          if t - start <? 40 * fifty_ms then
            match poll_cycle cmd_id w1 with
            | (Raise e, w2) => Some (Raise e, w2)
            | (Ret (Some response), w2) => Some (Ret response, w2)
            | (Ret None, w2) =>
                match time_sleep (Finite fifty_ms) w2 with
                | (Raise e, w3) => Some (Raise e, w3)
                | (Ret _, w3) => quick_ping_loop fuel' cmd_id start w3
                end
            end
          else Some (Ret no_success, w1)
      end
  end.

(** Lines 450-484.  The first lines are those of [send_command]
    ([prepare]), the envelope is
    [{"id": cmd_id, "action": "ping", "params": {}}]. *)
Definition _quick_ping (fuel : nat) (w : world) : option (res pyval * world) :=
  match prepare w with
  | (Raise e, w1) => Some (Raise e, w1)
  | (Ret cmd_id, w1) =>
      let cmd := PDict [("id", PStr cmd_id); ("action", PStr "ping");
                        ("params", PDict [])] in
      match publish cmd w1 with
      | (Raise e, w2) =>
          if is_OSError e then Some (Ret no_success, w2)
          else Some (Raise e, w2)
      | (Ret _, w2) =>
          match time_monotonic w2 with
          | (Raise e, w3) => Some (Raise e, w3)
          | (Ret start, w3) => quick_ping_loop fuel cmd_id start w3
          end
      end
  end.

End QuickPing.

(** ** The tool dispatch *)

(** [str(v)] as an f-string renders it; the runtime's, of which only the
    case of a string matters below. *)
Class PyText : Type := {
  py_str : pyval -> string;
  py_str_of_str : forall s, py_str (PStr s) = s
}.

(** [TextContent(type=..., text=...)] *)
Record TextContent : Type := {
  content_type : string;
  content_text : string
}.

(** [obj.get(key, default)] *)
Definition py_get_default (obj : pyval) (key : string) (default : pyval)
  : res pyval :=
  match obj with
  | PDict d => Ret (match dict_get key d with Some v => v | None => default end)
  | _ => Raise AttributeError
  end.

Section ToolDispatch.
Context {E : Env} {J : JsonLib} {T : PyText}.

(** Lines 500-505. *)
Definition make_result (response : pyval) : res (list TextContent) :=
  success <~ py_get response "success" ;;
  text <~ (if py_truthy success then
             result <~ py_get_default response "result" (PDict []) ;;
             Ret (json_dumps_indent2 result)
           else
             error <~ py_get_default response "error" (PStr "Unknown error") ;;
             Ret ("Error: " +:+ py_str error)) ;;
  Ret [ {| content_type := "text"; content_text := text |} ].

(** Lines 1026-1028: [send_command] on a worker thread, then
    [make_result]. *)
Definition call_tool (fuel : nat) (name : string) (arguments : pyval)
    (w : world) : option (res (list TextContent) * world) :=
  match send_command fuel name arguments w with
  | None => None
  | Some (Raise e, w') => Some (Raise e, w')
  | Some (Ret response, w') => Some (make_result response, w')
  end.

End ToolDispatch.

(** ** Where REAPER keeps its files *)

(** The process environment and the path library: paths are given by
    their text, [Path] normalises a text, [joinpath] is the [/] of
    pathlib. *)
Class Platform : Type := {
  sys_platform : string;
  environ : gmap string string;
  path_home : string;
  Path : string -> string;
  joinpath : string -> string -> string;
  path_exists_now : string -> bool
}.

Section ResourcePath.
Context {P : Platform}.

(** [os.environ.get(name)] taken as a condition: set and not empty. *)
Definition environ_truthy (name : string) : option string :=
  match environ !! name with
  | Some s => if String.eqb s "" then None else Some s
  | None => None
  end.

(** Lines 55-68: the places to look in, the override first. *)
Definition resource_candidates : list string :=
  let candidates :=
    if String.eqb sys_platform "darwin" then
      [joinpath (joinpath (joinpath path_home "Library") "Application Support")
         "REAPER"]
    else if String.eqb sys_platform "win32" then
      match environ_truthy "APPDATA" with
      | Some appdata => [joinpath (Path appdata) "REAPER"]
      | None => []
      end
    else [joinpath (joinpath path_home ".config") "REAPER"] in
  match environ_truthy "REAPER_RESOURCE_PATH" with
  | Some env => Path env :: candidates
  | None => candidates
  end.

(** Lines 53-73. *)
Definition get_reaper_resource_path : option string :=
  match List.find path_exists_now resource_candidates with
  | Some p => Some p
  | None =>
      match resource_candidates with
      | p :: _ => Some p
      | [] => None
      end
  end.

End ResourcePath.


(** ** More scenarios *)

Module Cases.

(** The response cannot be unlinked (the third system call of a pass). *)
Definition unlink_refused : Env :=
  Demo.env Demo.idle (Demo.fault_at 2 "[Errno 13] Permission denied").

(** The disk is full at the first write to the temporary file (the sixth
    system call). *)
Definition write_refused : Env :=
  Demo.env Demo.idle (Demo.fault_at 5 "[Errno 28] No space left on device").

(** A response that names no command. *)
Definition anonymous_bytes : string :=
  PyJson.dumps (PDict [("success", PBool true); ("result", PNone)]).

Definition anonymous : world :=
  Demo.world_with {[ @RSP_FILE Demo.quiet := anonymous_bytes ]}.

(** The listener reports a failure of the action. *)
Definition failure_bytes : string :=
  PyJson.dumps (PDict [("id", PStr "1b4e28ba-2fa1-41d2-883f-0016d3cca427");
                       ("success", PBool false);
                       ("error", PStr "Track 7 not found")]).

Definition failing : Env :=
  Demo.env (Demo.at_tick 9 (HostPut failure_bytes)) Demo.no_fault.

(** Nobody answers and nothing is refused; the settings and what a call
    takes are the caller's. *)
Definition settings (timeout : pyfloat) (cost : Z) : Env :=
  {| IPC_DIR := "/home/u/.reaper-mcp";
     POLL_INTERVAL := Finite 30;
     TIMEOUT := timeout;
     win32 := false;
     fault := Demo.no_fault;
     host := Demo.idle;
     elapsed := fun _ => cost;
     uuid4 := fun _ => "1b4e28ba-2fa1-41d2-883f-0016d3cca427";
     mkstemp_name := fun _ => "k3x9_q1z";
     io_buffer := 8 * 1024 |}.


(** Every call takes four tenths of a second. *)
Definition sluggish : Env := settings (Finite 200) 400.


(** The [exists] of the first pass of a call (the tenth system call) is
    refused. *)
Definition exists_refused : Env :=
  Demo.env Demo.idle (Demo.fault_at 9 "[Errno 13] Permission denied").

(** A response read while its last character, a two-byte one, is half
    written. *)
Definition half_written_bytes : string :=
  String "123"%char (String "195"%char EmptyString).

Definition half_written : world :=
  Demo.world_with {[ @RSP_FILE Demo.quiet := half_written_bytes ]}.

(** Lists in lists, [n] deep. *)
Fixpoint repeat_char (a : ascii) (n : nat) : string :=
  match n with
  | O => EmptyString
  | S k => String a (repeat_char a k)
  end.

Definition nested (n : nat) : string :=
  repeat_char "["%char n +:+ repeat_char "]"%char n.

Definition too_deep : world :=
  Demo.world_with
    {[ @RSP_FILE Demo.quiet := nested (S PyJson.recursion_limit) ]}.

(** A configuration file that holds a list. *)
Definition list_code_config : world :=
  Demo.world_with {[ Demo.claude_code_config := "[]" ]}.

(** [repr] of a string made of ASCII characters; bytes above 127 are
    passed on as they are. *)
Definition hex_digit (n : N) : ascii :=
  if N.ltb n 10 then ascii_of_N (48 + n) else ascii_of_N (87 + n).

Definition repr_char (q c : ascii) : string :=
  let n := N_of_ascii c in
  if Ascii.eqb c q || N.eqb n 92 then String (ascii_of_N 92) (String c EmptyString)
  else if N.eqb n 9 then String (ascii_of_N 92) "t"
  else if N.eqb n 10 then String (ascii_of_N 92) "n"
  else if N.eqb n 13 then String (ascii_of_N 92) "r"
  else if N.ltb n 32 || N.eqb n 127 then
    String (ascii_of_N 92)
      (String "x" (String (hex_digit (N.div n 16))
                     (String (hex_digit (N.modulo n 16)) EmptyString)))
  else String c EmptyString.

Fixpoint has_char (c : ascii) (s : string) : bool :=
  match s with
  | EmptyString => false
  | String a t => Ascii.eqb a c || has_char c t
  end.

Fixpoint repr_chars (q : ascii) (s : string) : string :=
  match s with
  | EmptyString => EmptyString
  | String a t => repr_char q a +:+ repr_chars q t
  end.

Definition repr_str (s : string) : string :=
  let single := ascii_of_N 39 in
  let double := ascii_of_N 34 in
  let q := if has_char single s && negb (has_char double s) then double
           else single in
  String q (repr_chars q s +:+ String q EmptyString).

Fixpoint repr (v : pyval) : string :=
  match v with
  | PNone => "None"
  | PBool true => "True"
  | PBool false => "False"
  | PInt z => PyJson.dumps_int z
  | PStr s => repr_str s
  | PList [] => "[]"
  | PList (x :: xs) =>
      "[" +:+ repr x
      +:+ (fix rest (l : list pyval) : string :=
             match l with
             | [] => EmptyString
             | y :: l' => ", " +:+ repr y +:+ rest l'
             end) xs
      +:+ "]"
  | PDict [] => "{}"
  | PDict ((k, x) :: es) =>
      "{" +:+ repr_str k +:+ ": " +:+ repr x
      +:+ (fix rest (l : list (string * pyval)) : string :=
             match l with
             | [] => EmptyString
             | (k', y) :: l' =>
                 ", " +:+ repr_str k' +:+ ": " +:+ repr y +:+ rest l'
             end) es
      +:+ "}"
  end.

(** [str]: a string is itself, anything else its [repr]. *)
Definition str (v : pyval) : string :=
  match v with
  | PStr s => s
  | _ => repr v
  end.

Definition text : PyText :=
  {| py_str := str; py_str_of_str := fun _ => eq_refl |}.

(** Paths in normal form, joined with a slash. *)
Definition platform (name : string) (vars : gmap string string)
    (home : string) (present : list string) : Platform :=
  {| sys_platform := name;
     environ := vars;
     path_home := home;
     Path := fun s => s;
     joinpath := fun a b => a +:+ "/" +:+ b;
     path_exists_now := fun p => bool_decide (p ∈ present) |}.

(** Windows without APPDATA. *)
Definition bare_windows : Platform :=
  platform "win32" {[ "REAPER_RESOURCE_PATH" := "" ]} "C:/Users/u" [].

(** Linux with an override that points nowhere and the default directory
    in place. *)
Definition stale_override : Platform :=
  platform "linux" {[ "REAPER_RESOURCE_PATH" := "/opt/reaper" ]} "/home/u"
    ["/home/u/.config/REAPER"].

End Cases.

(** * Properties *)

(** ** Strings and paths *)

Example str_strip_words : str_strip ("  a b" +:+ String "010"%char " ") = "a b".
Proof. reflexivity. Qed.

Example str_strip_blank : str_strip (String "009"%char (String "010"%char " ")) = "".
Proof. reflexivity. Qed.

Lemma append_cons a s t : String a s +:+ t = String a (s +:+ t).
Proof. reflexivity. Qed.

Lemma append_nil_r s : s +:+ EmptyString = s.
Proof. induction s as [|a s IH]; [reflexivity | by rewrite append_cons, IH]. Qed.

Lemma append_assoc s t u : (s +:+ t) +:+ u = s +:+ t +:+ u.
Proof. induction s as [|a s IH]; [reflexivity | by rewrite !append_cons, IH]. Qed.

Lemma substring_whole s : String.substring 0 (String.length s) s = s.
Proof. induction s as [|a s IH]; simpl; [reflexivity | by rewrite IH]. Qed.

Lemma substring_split k s :
  String.substring 0 k s +:+ String.substring k (String.length s - k) s = s.
Proof.
  revert k. induction s as [|a s IH]; intros [|k]; simpl; try reflexivity.
  - by rewrite substring_whole.
  - rewrite append_cons. f_equal. apply IH.
Qed.

Lemma substring_drop_length k s :
  String.length (String.substring k (String.length s - k) s)
  = (String.length s - k)%nat.
Proof.
  revert k. induction s as [|a s IH]; intros [|k]; simpl; try reflexivity.
  - by rewrite substring_whole.
  - apply IH.
Qed.

(** ** The model at work *)

Example ping_answered :
  Demo.outcome (@send_command Demo.answering PyJson.lib 8 "ping" (PDict []) Demo.boot)
  = Ret (PDict [("id", PStr "1b4e28ba-2fa1-41d2-883f-0016d3cca427");
                ("success", PBool true);
                ("result", PDict [("ok", PBool true)])]).
Proof. vm_compute. reflexivity. Qed.

Example set_tempo_times_out :
  Demo.outcome
    (@send_command Demo.quiet PyJson.lib 8 "set_tempo"
       (PDict [("bpm", PInt 120)]) Demo.boot)
  = Ret (@timeout_failure "1b4e28ba-2fa1-41d2-883f-0016d3cca427")
  /\ now (Demo.final
            (@send_command Demo.quiet PyJson.lib 8 "set_tempo"
               (PDict [("bpm", PInt 120)]) Demo.boot)) = 210.
Proof. split; vm_compute; reflexivity. Qed.

Example command_file_after_ping :
  PyJson.loads
  <$> files (Demo.final
               (@send_command Demo.quiet PyJson.lib 8 "ping" PNone Demo.boot))
      !! @CMD_FILE Demo.quiet
  = Some (Ret (PDict [("id", PStr "1b4e28ba-2fa1-41d2-883f-0016d3cca427");
                      ("action", PStr "ping"); ("params", PDict [])])).
Proof. vm_compute. reflexivity. Qed.

Example loads_dumps_nested :
  PyJson.loads
    (PyJson.dumps_indent2
       (PDict [("mcpServers", PDict [("reaper", Demo.server_entry)]);
               ("n", PList [PInt (-12); PBool true; PNone; PStr ("a" +:+ nl)])])
     +:+ nl)
  = Ret (PDict [("mcpServers", PDict [("reaper", Demo.server_entry)]);
                ("n", PList [PInt (-12); PBool true; PNone; PStr ("a" +:+ nl)])]).
Proof. vm_compute. reflexivity. Qed.

Example dumps_indent2_layout :
  PyJson.dumps_indent2 (PDict [("a", PList [PInt 1; PInt 2]); ("b", PDict [])])
  = "{" +:+ nl +:+ "  " +:+ PyJson.dumps_str "a" +:+ ": [" +:+ nl
    +:+ "    1," +:+ nl +:+ "    2" +:+ nl +:+ "  ]," +:+ nl
    +:+ "  " +:+ PyJson.dumps_str "b" +:+ ": {}" +:+ nl +:+ "}".
Proof. vm_compute. reflexivity. Qed.

Example loads_rejects_truncated : PyJson.loads "[1, 2" = Raise JSONDecodeError.
Proof. vm_compute. reflexivity. Qed.

Example loads_duplicate_key :
  PyJson.loads
    ("{" +:+ PyJson.dumps_str "a" +:+ ": 1, " +:+ PyJson.dumps_str "b"
     +:+ ": 2, " +:+ PyJson.dumps_str "a" +:+ ": 3}")
  = Ret (PDict [("a", PInt 3); ("b", PInt 2)]).
Proof. vm_compute. reflexivity. Qed.

Example exists_refused_ends_call :
  Demo.outcome
    (@send_command Cases.exists_refused PyJson.lib 8 "ping" PNone Demo.boot)
  = Raise (OSError "[Errno 13] Permission denied").
Proof. vm_compute. reflexivity. Qed.

Example loads_float : PyJson.loads "[1, 2.5e3]" = Raise (OtherError "float").
Proof. vm_compute. reflexivity. Qed.

Example loads_float_then_garbage : PyJson.loads "[2.5, oops" = Raise JSONDecodeError.
Proof. vm_compute. reflexivity. Qed.

Example loads_point_without_digits : PyJson.loads "1." = Raise JSONDecodeError.
Proof. vm_compute. reflexivity. Qed.

Example loads_nested : PyJson.loads (Cases.nested 3) = Ret (PList [PList [PList []]]).
Proof. vm_compute. reflexivity. Qed.

Example loads_too_deep :
  PyJson.loads (Cases.nested (S PyJson.recursion_limit)) = Raise RecursionError.
Proof. vm_compute. reflexivity. Qed.

Example py_eq_ignores_key_order :
  py_eq (PDict [("a", PInt 1); ("b", PBool true)])
        (PDict [("b", PInt 1); ("a", PBool true)]) = true.
Proof. reflexivity. Qed.

Section Facts.
Context {E : Env} {J : JsonLib}.

(** The writer hands over the whole text, piece by piece. *)
Lemma chunks_concat fuel s :
  (String.length s <= fuel)%nat -> concat_str (chunks fuel s) = s.
Proof.
  revert s. induction fuel as [|n IH]; intros s Hs.
  - destruct s; [reflexivity | simpl in Hs; lia].
  - destruct s as [|a s]; [reflexivity|].
    cbn [chunks concat_str]. rewrite IH.
    + apply substring_split.
    + rewrite substring_drop_length. simpl in *. lia.
Qed.

Lemma tmp_not_cmd n : IPC_DIR +:+ "/tmp" +:+ n +:+ ".tmp" <> CMD_FILE.
Proof. unfold CMD_FILE. intros H. apply (inj _) in H. discriminate H. Qed.

Lemma tmp_not_rsp n : IPC_DIR +:+ "/tmp" +:+ n +:+ ".tmp" <> RSP_FILE.
Proof. unfold RSP_FILE. intros H. apply (inj _) in H. discriminate H. Qed.

Lemma cmd_not_rsp : CMD_FILE <> RSP_FILE.
Proof. unfold CMD_FILE, RSP_FILE. intros H. apply (inj _) in H. discriminate H. Qed.

(** ** What a computation leaves alone *)

Lemma grows_refl I w : grows I w w.
Proof. exists []. split; [reflexivity | constructor]. Qed.

Lemma grows_trans I w1 w2 w3 : grows I w1 w2 -> grows I w2 w3 -> grows I w1 w3.
Proof.
  intros (n1 & H1 & F1) (n2 & H2 & F2). exists (n2 ++ n1)%list. split.
  - by rewrite H2, H1, app_assoc.
  - apply Forall_app; auto.
Qed.

Lemma grows_weaken (I I' : gmap string string -> Prop) w w' :
  (forall fs, I fs -> I' fs) -> grows I w w' -> grows I' w w'.
Proof.
  intros HI (n & H & F). exists n. split; [done|].
  eapply Forall_impl; eauto.
Qed.

Lemma grows_leave (I : gmap string string -> Prop) w fs dt :
  I fs -> grows I w (leave w fs dt).
Proof. intros H. exists [fs]. split; [reflexivity | by constructor]. Qed.

Lemma same_at_refl p w : same_at p w w.
Proof. split; [reflexivity | apply grows_refl]. Qed.

Lemma same_at_trans p w1 w2 w3 :
  same_at p w1 w2 -> same_at p w2 w3 -> same_at p w1 w3.
Proof.
  intros [H1 G1] [H2 G2]. split; [congruence|].
  eapply grows_trans; [exact G1|].
  eapply grows_weaken; [|exact G2]. intros fs Hfs. congruence.
Qed.

Lemma same_at_leave p w fs dt :
  fs !! p = files w !! p -> same_at p w (leave w fs dt).
Proof. intros H. split; [exact H | by apply grows_leave]. Qed.

Lemma enter_lookup_ne p w : p <> RSP_FILE -> enter w !! p = files w !! p.
Proof.
  intros Hp. unfold enter, host_apply. destruct (host (ticks w)).
  - reflexivity.
  - by rewrite lookup_insert_ne.
  - by rewrite lookup_delete_ne.
Qed.

Lemma frames_ret p {A} (a : A) : frames p (ret a).
Proof. intros w r w' H. inversion H; subst. apply same_at_refl. Qed.

Lemma frames_lift p {A} (x : res A) : frames p (lift x).
Proof. intros w r w' H. inversion H; subst. apply same_at_refl. Qed.

Lemma frames_bind p {A B} (m : M A) (k : A -> M B) :
  frames p m -> (forall a, frames p (k a)) -> frames p (bind m k).
Proof.
  intros Hm Hk w r w' H. unfold bind in H.
  destruct (m w) as [[a|e] w1] eqn:Em.
  - eapply same_at_trans; [eapply Hm, Em | eapply Hk, H].
  - inversion H; subst. eapply Hm, Em.
Qed.

Lemma frames_try_except p {A} (m : M A) handled (h : exn -> M A) :
  frames p m -> (forall e, frames p (h e)) -> frames p (try_except m handled h).
Proof.
  intros Hm Hh w r w' H. unfold try_except in H.
  destruct (m w) as [[a|e] w1] eqn:Em.
  - inversion H; subst. eapply Hm, Em.
  - destruct (handled e).
    + eapply same_at_trans; [eapply Hm, Em | eapply Hh, H].
    + inversion H; subst. eapply Hm, Em.
Qed.

Lemma frames_syscall p {A}
    (op : nat -> gmap string string -> res A * gmap string string) :
  p <> RSP_FILE ->
  (forall k fs r fs', op k fs = (r, fs') -> fs' !! p = fs !! p) ->
  frames p (syscall op).
Proof.
  intros Hp Hop w r w' H. unfold syscall in H.
  destruct (fault (ticks w)).
  - inversion H; subst. apply same_at_leave. by apply enter_lookup_ne.
  - destruct (op (ticks w) (enter w)) as [r1 fs1] eqn:Eop.
    inversion H; subst. apply same_at_leave.
    rewrite (Hop _ _ _ _ Eop). by apply enter_lookup_ne.
Qed.

Lemma frames_os_mkdir p q : p <> RSP_FILE -> frames p (os_mkdir q).
Proof. intros Hp. apply frames_syscall; [done|]. intros ???? [= _ <-]. done. Qed.

Lemma frames_os_chmod p q : p <> RSP_FILE -> frames p (os_chmod q).
Proof. intros Hp. apply frames_syscall; [done|]. intros ???? [= _ <-]. done. Qed.

Lemma frames_os_unlink p q : p <> RSP_FILE -> p <> q -> frames p (os_unlink q).
Proof.
  intros Hp Hq. apply frames_syscall; [done|]. intros ???? [= _ <-].
  by rewrite lookup_delete_ne.
Qed.

Lemma frames_read_text p q : p <> RSP_FILE -> frames p (read_text q).
Proof.
  intros Hp. apply frames_syscall; [done|]. intros k fs r fs' H.
  destruct (fs !! q); [destruct (utf8_valid _)|]; by inversion H.
Qed.

Lemma frames_write_bytes p q b :
  p <> RSP_FILE -> p <> q -> frames p (write_bytes q b).
Proof.
  intros Hp Hq. apply frames_syscall; [done|]. intros ???? [= _ <-].
  by rewrite lookup_insert_ne.
Qed.

Lemma frames_path_exists p q : p <> RSP_FILE -> frames p (path_exists q).
Proof. intros Hp. apply frames_syscall; [done|]. intros ???? [= _ <-]. done. Qed.

Lemma frames_time_monotonic p : p <> RSP_FILE -> frames p time_monotonic.
Proof.
  intros Hp w r w' H. inversion H; subst. apply same_at_leave.
  by apply enter_lookup_ne.
Qed.

Lemma frames_new_uuid p : p <> RSP_FILE -> frames p new_uuid.
Proof.
  intros Hp w r w' H. inversion H; subst. apply same_at_leave.
  by apply enter_lookup_ne.
Qed.

Lemma frames_time_sleep p secs : p <> RSP_FILE -> frames p (time_sleep secs).
Proof.
  intros Hp w r w' H. unfold time_sleep in H.
  destruct secs as [z| | |]; [destruct (z <? 0)| | |];
    inversion H; subst; try apply same_at_refl.
  apply same_at_leave. by apply enter_lookup_ne.
Qed.

Lemma frames_write_chunks p q cs :
  p <> RSP_FILE -> p <> q -> frames p (write_chunks q cs).
Proof.
  intros Hp Hq. induction cs as [|c cs IH]; simpl.
  - apply frames_ret.
  - apply frames_bind; [by apply frames_write_bytes | intros _; exact IH].
Qed.

Lemma frames_prepare p : p <> RSP_FILE -> frames p prepare.
Proof.
  intros Hp. unfold prepare, ensure_ipc_dir.
  repeat first
    [ apply frames_bind; [|intros ?]
    | apply frames_try_except; [|intros ?]
    | apply frames_ret
    | by apply frames_os_mkdir
    | by apply frames_os_chmod
    | by apply frames_new_uuid
    | by apply frames_os_unlink
    | destruct win32; simpl ].
Qed.

Lemma frames_poll_cycle p cmd_id : p <> RSP_FILE -> frames p (poll_cycle cmd_id).
Proof.
  intros Hp. unfold poll_cycle.
  apply frames_bind; [by apply frames_path_exists|]. intros [|].
  - apply frames_try_except; [|intros; apply frames_ret].
    apply frames_bind; [by apply frames_read_text|]. intros content.
    apply frames_bind; [by apply frames_os_unlink|]. intros _.
    apply frames_bind; [apply frames_lift|]. intros response.
    apply frames_bind; [apply frames_lift|]. intros rid.
    destruct (py_eq _ _); apply frames_ret.
  - apply frames_ret.
Qed.

Lemma poll_loop_S fuel cmd_id start w :
  poll_loop (S fuel) cmd_id start w
  = match time_monotonic w with
    | (Raise e, w1) => Some (Raise e, w1)
    | (Ret t, w1) =>
        if lt_float (t - start) TIMEOUT then
          match poll_cycle cmd_id w1 with
          | (Raise e, w2) => Some (Raise e, w2)
          | (Ret (Some response), w2) => Some (Ret response, w2)
          | (Ret None, w2) =>
              match time_sleep POLL_INTERVAL w2 with
              | (Raise e, w3) => Some (Raise e, w3)
              | (Ret _, w3) => poll_loop fuel cmd_id start w3
              end
          end
        else Some (Ret (timeout_failure cmd_id), w1)
    end.
Proof. reflexivity. Qed.

Lemma poll_loop_same_at p fuel cmd_id start w r w' :
  p <> RSP_FILE ->
  poll_loop fuel cmd_id start w = Some (r, w') -> same_at p w w'.
Proof.
  intros Hp. revert w. induction fuel as [|n IH]; intros w H; [discriminate|].
  rewrite poll_loop_S in H.
  destruct (time_monotonic w) as [[t|e] w1] eqn:E1;
    pose proof (frames_time_monotonic p Hp _ _ _ E1) as S1.
  2:{ inversion H; subst. exact S1. }
  destruct (lt_float (t - start) TIMEOUT).
  2:{ inversion H; subst. exact S1. }
  destruct (poll_cycle cmd_id w1) as [[[v|]|e] w2] eqn:E2;
    pose proof (frames_poll_cycle p cmd_id Hp _ _ _ E2) as S2.
  - inversion H; subst. eapply same_at_trans; eauto.
  - destruct (time_sleep POLL_INTERVAL w2) as [[u|e] w3] eqn:E3;
      pose proof (frames_time_sleep p _ Hp _ _ _ E3) as S3.
    + eapply same_at_trans; [exact S1|]. eapply same_at_trans; [exact S2|].
      eapply same_at_trans; [exact S3|]. by apply IH.
    + inversion H; subst.
      eapply same_at_trans; [exact S1|]. eapply same_at_trans; eauto.
  - inversion H; subst. eapply same_at_trans; eauto.
Qed.

Lemma write_chunks_spec p cs w x r w' :
  p <> RSP_FILE ->
  files w !! p = Some x ->
  write_chunks p cs w = (r, w') ->
  (r = Ret tt /\ files w' !! p = Some (x +:+ concat_str cs))
  \/ (exists msg, r = Raise (OSError msg) /\ is_Some (files w' !! p)).
Proof.
  intros Hp. revert w x. induction cs as [|c cs IH]; intros w x Hx H.
  - inversion H; subst. left. by rewrite append_nil_r.
  - cbn [write_chunks] in H. unfold bind at 1 in H.
    unfold write_bytes, syscall in H.
    pose proof (enter_lookup_ne p w Hp) as He. rewrite Hx in He.
    destruct (fault (ticks w)) as [msg|].
    + inversion H; subst. right. exists msg. split; [done|].
      simpl. rewrite He. eauto.
    + rewrite He in H.
      eapply IH in H.
      * cbn [concat_str]. rewrite <- append_assoc. exact H.
      * simpl. by rewrite lookup_insert_eq.
Qed.

Lemma prefix_append d s : String.prefix d (d +:+ s) = true.
Proof.
  induction d as [|a d IH].
  - by destruct s.
  - rewrite append_cons. simpl. destruct (ascii_dec a a); [exact IH | done].
Qed.

Lemma headed_leave w fs dt : headed (leave w fs dt).
Proof. by exists (history w). Qed.

Lemma write_chunks_headed p cs w r w' :
  headed w -> write_chunks p cs w = (r, w') -> headed w'.
Proof.
  revert w. induction cs as [|c cs IH]; intros w Hw H.
  - by inversion H; subst.
  - cbn [write_chunks] in H. unfold bind at 1 in H.
    unfold write_bytes, syscall in H.
    destruct (fault (ticks w)).
    + inversion H; subst. apply headed_leave.
    + eapply IH; [|exact H]. apply headed_leave.
Qed.

(** What [publish] does to the command path, step by step. *)
Lemma publish_spec cmd w r w' :
  publish cmd w = (r, w') ->
  let old := files w !! CMD_FILE in
  let new := text_encode (json_dumps cmd) in
  let tmp_path := IPC_DIR +:+ "/tmp" +:+ mkstemp_name (ticks w) +:+ ".tmp" in
  grows (fun fs => fs !! CMD_FILE = old \/ fs !! CMD_FILE = Some new) w w'
  /\ ((r = Ret tt /\ files w' !! CMD_FILE = Some new
       /\ String.prefix (IPC_DIR +:+ "/") tmp_path = true
       /\ files w' !! tmp_path = None
       /\ exists before rest,
            history w' = files w' :: before :: rest
            /\ before !! tmp_path = Some new
            /\ before !! CMD_FILE = old)
      \/ (exists msg, r = Raise (OSError msg) /\ files w' !! CMD_FILE = old)).
Proof.
  intros H old new tmp_path. unfold publish in H. unfold bind at 1 in H.
  unfold mkstemp at 1, syscall at 1 in H.
  pose proof (enter_lookup_ne CMD_FILE w cmd_not_rsp) as Hc.
  destruct (fault (ticks w)) as [msg|].
  { inversion H; subst. split.
    - apply grows_leave. by left.
    - right. exists msg. done. }
  set (p := IPC_DIR +:+ "/tmp" +:+ mkstemp_name (ticks w) +:+ ".tmp") in *.
  assert (Hpc : CMD_FILE <> p) by (intros Heq; by apply (tmp_not_cmd (mkstemp_name (ticks w)))).
  assert (Hpr : p <> RSP_FILE) by apply tmp_not_rsp.
  destruct (enter w !! p) eqn:Hp.
  { inversion H; subst. split.
    - apply grows_leave. by left.
    - right. eexists. done. }
  set (w1 := leave w (<[p:=""]> (enter w)) 0) in *.
  assert (S1 : same_at CMD_FILE w w1).
  { apply same_at_leave. by rewrite lookup_insert_ne. }
  assert (H1 : files w1 !! p = Some "") by (simpl; by rewrite lookup_insert_eq).
  unfold bind at 1 in H.
  destruct (write_all p (json_dumps cmd) w1) as [[[]|e] w2] eqn:Ew;
    pose proof (frames_write_chunks CMD_FILE p _ cmd_not_rsp Hpc _ _ _ Ew) as S2;
    destruct (same_at_trans _ _ _ _ S1 S2) as [Hf G];
    destruct (write_chunks_spec p _ w1 "" _ _ Hpr H1 Ew)
      as [[Hr Hcontent]|(msg & Hr & _)]; try discriminate Hr.
  2:{ inversion H; subst. split.
      - eapply grows_weaken; [|exact G]. intros fs ->. by left.
      - right. exists msg. inversion Hr. done. }
  rewrite chunks_concat in Hcontent by lia. simpl in Hcontent. fold new in Hcontent.
  unfold os_replace, syscall in H.
  pose proof (enter_lookup_ne p w2 Hpr) as Hp2. rewrite Hcontent in Hp2.
  pose proof (enter_lookup_ne CMD_FILE w2 cmd_not_rsp) as Hc2.
  destruct (fault (ticks w2)) as [msg|].
  { inversion H; subst. split.
    - eapply grows_trans.
      + eapply grows_weaken; [|exact G]. intros fs ->. by left.
      + apply grows_leave. left. by rewrite Hc2.
    - right. exists msg. split; [done|]. simpl. by rewrite Hc2. }
  rewrite Hp2 in H. inversion H; subst. split.
  - eapply grows_trans.
    + eapply grows_weaken; [|exact G]. intros fs ->. by left.
    + apply grows_leave. right. by rewrite lookup_insert_eq.
  - left. split; [done|]. split; [simpl; by rewrite lookup_insert_eq|].
    destruct (write_chunks_headed _ _ _ _ _ (headed_leave _ _ _) Ew) as [rest Hh].
    split; [|split].
    + unfold tmp_path, p.
      replace (IPC_DIR +:+ "/tmp" +:+ mkstemp_name (ticks w) +:+ ".tmp")
        with ((IPC_DIR +:+ "/") +:+ "tmp" +:+ mkstemp_name (ticks w) +:+ ".tmp")
        by (by rewrite append_assoc).
      apply prefix_append.
    + simpl. rewrite lookup_insert_ne by done. apply lookup_delete_eq.
    + exists (files w2), rest. repeat split.
      * simpl. by rewrite Hh.
      * exact Hcontent.
      * exact Hf.
Qed.

Lemma write_chunks_ticks p cs w r w' :
  write_chunks p cs w = (r, w') -> (ticks w <= ticks w')%nat.
Proof.
  revert w. induction cs as [|c cs IH]; intros w H.
  - inversion H; subst. lia.
  - cbn [write_chunks] in H. unfold bind at 1, write_bytes, syscall in H.
    destruct (fault (ticks w)).
    + inversion H; subst. simpl. lia.
    + apply IH in H. simpl in H. lia.
Qed.

(** A write that fails was refused. *)
Lemma write_chunks_refused p cs w e w' :
  write_chunks p cs w = (Raise e, w') ->
  exists k msg, (ticks w <= k < ticks w')%nat /\ fault k = Some msg.
Proof.
  revert w. induction cs as [|c cs IH]; intros w H; [discriminate H|].
  cbn [write_chunks] in H. unfold bind at 1 in H.
  unfold write_bytes, syscall in H.
  destruct (fault (ticks w)) as [msg|] eqn:Ef.
  - inversion H; subst. exists (ticks w), msg. simpl. split; [lia | exact Ef].
  - destruct (IH _ H) as (k & msg & Hk & Hf). exists k, msg.
    simpl in Hk. split; [lia | exact Hf].
Qed.

(** Publishing fails only when one of its calls is refused, or when the
    name drawn for the temporary file is taken. *)
Lemma publish_refused cmd w e w' :
  publish cmd w = (Raise e, w') ->
  (exists k msg, (ticks w <= k < ticks w')%nat /\ fault k = Some msg)
  \/ is_Some (files w !! (IPC_DIR +:+ "/tmp" +:+ mkstemp_name (ticks w) +:+ ".tmp")).
Proof.
  intros H. unfold publish in H. unfold bind at 1 in H.
  unfold mkstemp at 1, syscall at 1 in H.
  destruct (fault (ticks w)) as [msg|] eqn:Ef.
  { inversion H; subst. left. exists (ticks w), msg. simpl. split; [lia|done]. }
  set (p := IPC_DIR +:+ "/tmp" +:+ mkstemp_name (ticks w) +:+ ".tmp") in *.
  assert (Hpr : p <> RSP_FILE) by apply tmp_not_rsp.
  rewrite (enter_lookup_ne p w Hpr) in H.
  destruct (files w !! p) eqn:Hp; [right; eauto|].
  set (w1 := leave w (<[p:=""]> (enter w)) 0) in *.
  assert (H1 : files w1 !! p = Some "") by (simpl; by rewrite lookup_insert_eq).
  unfold bind at 1 in H.
  destruct (write_all p (json_dumps cmd) w1) as [[[]|e'] w2] eqn:Ew.
  - destruct (write_chunks_spec p _ w1 "" _ _ Hpr H1 Ew)
      as [[_ Hcontent]|(msg & [=] & _)].
    pose proof (write_chunks_ticks _ _ _ _ _ Ew) as Htk.
    unfold os_replace, syscall in H.
    pose proof (enter_lookup_ne p w2 Hpr) as Hp2. rewrite Hcontent in Hp2.
    destruct (fault (ticks w2)) as [msg|] eqn:Ef2.
    + inversion H; subst. left. exists (ticks w2), msg. simpl in *.
      split; [lia | exact Ef2].
    + rewrite Hp2 in H. discriminate H.
  - inversion H; subst.
    destruct (write_chunks_refused _ _ _ _ _ Ew) as (k & msg & Hk & Hf).
    left. exists k, msg. simpl in Hk. split; [lia | exact Hf].
Qed.
(** ** The poll loop, pass by pass *)

Lemma poll_cycle_eq cmd_id w :
  poll_cycle cmd_id w
  = let w1 := leave w (enter w) 0 in
    match fault (ticks w) with
    | Some msg => (Raise (OSError msg), w1)
    | None =>
        match enter w !! RSP_FILE with
        | None => (Ret None, w1)
        | Some _ =>
            let w2 := leave w1 (enter w1) 0 in
            match fault (ticks w1) with
            | Some _ => (Ret None, w2)
            | None =>
                match enter w1 !! RSP_FILE with
                | None => (Ret None, w2)
                | Some b =>
                    if utf8_valid b then
                      match fault (ticks w2) with
                      | Some _ => (Ret None, leave w2 (enter w2) 0)
                      | None =>
                          after_parse cmd_id b
                            (leave w2 (delete RSP_FILE (enter w2)) 0)
                      end
                    else (Raise UnicodeDecodeError, w2)
                end
            end
        end
    end.
Proof.
  unfold poll_cycle, after_parse, bind, try_except, path_exists, read_text,
    os_unlink, syscall, lift, ret.
  cbn zeta.
  destruct (fault (ticks w)); [reflexivity|].
  destruct (enter w !! RSP_FILE); [|reflexivity].
  cbn [ticks leave].
  destruct (fault (S (ticks w))); [reflexivity|].
  destruct (enter (leave w (enter w) 0) !! RSP_FILE) as [b|]; [|reflexivity].
  destruct (utf8_valid b); [|reflexivity].
  cbn [ticks leave].
  destruct (fault (S (S (ticks w)))); [reflexivity|].
  destruct (json_loads (universal_newlines b)) as [v|e]; [|by destruct e].
  destruct (py_get v "id") as [rid|e]; [|by destruct e].
  by destruct (py_eq rid (PStr cmd_id)).
Qed.

Lemma after_parse_world cmd_id b w : snd (after_parse cmd_id b w) = w.
Proof.
  unfold after_parse. repeat case_match; reflexivity.
Qed.

(** One pass takes one to three system calls, and no negative time. *)
Lemma poll_cycle_time cmd_id w r w' :
  poll_cycle cmd_id w = (r, w') ->
  (ticks w < ticks w')%nat
  /\ ((forall k, 0 <= elapsed k) -> now w <= now w')
  /\ ((forall k, elapsed k = 0) -> now w' = now w)
  /\ (forall most, (forall k, 0 <= elapsed k <= most) ->
                    now w' <= now w + 3 * most).
Proof.
  rewrite poll_cycle_eq. cbn zeta. intros H.
  assert (Hw : w' = snd (r, w')) by reflexivity. rewrite <- H in Hw. clear H.
  repeat case_match; try rewrite after_parse_world in Hw; subst w'; simpl;
    (split; [lia|]);
    (split; [intros Hel | split; [intros Hel | intros most Hel]]);
    pose proof (Hel (ticks w)); pose proof (Hel (S (ticks w)));
    pose proof (Hel (S (S (ticks w)))); lia.
Qed.







Lemma poll_cycle_match cmd_id w v w' :
  poll_cycle cmd_id w = (Ret (Some v), w') ->
  exists rid, py_get v "id" = Ret rid /\ py_eq rid (PStr cmd_id) = true.
Proof.
  rewrite poll_cycle_eq. cbn zeta. unfold after_parse.
  repeat case_match; intros [= <- <-]; eauto.
Qed.

Lemma poll_loop_ret fuel cmd_id start w d w' :
  poll_loop fuel cmd_id start w = Some (Ret d, w') ->
  d = timeout_failure cmd_id
  \/ exists rid, py_get d "id" = Ret rid /\ py_eq rid (PStr cmd_id) = true.
Proof.
  revert w. induction fuel as [|n IH]; intros w H; [discriminate|].
  rewrite poll_loop_S in H.
  destruct (time_monotonic w) as [[t|e] w1]; [|discriminate].
  destruct (lt_float _ TIMEOUT); [|left; congruence].
  destruct (poll_cycle cmd_id w1) as [[[v|]|e] w2] eqn:Ec; [| |discriminate].
  - right. inversion H; subst. eapply poll_cycle_match, Ec.
  - destruct (time_sleep _ w2) as [[u|e] w3]; [eauto|discriminate].
Qed.


End Facts.

(** ** Dictionaries and equality *)

Lemma dict_get_set_eq k v d : dict_get k (dict_set k v d) = Some v.
Proof.
  induction d as [|[k' v'] d IH]; simpl.
  - by rewrite String.eqb_refl.
  - destruct (String.eqb k k') eqn:Ek; simpl; rewrite Ek; [reflexivity | exact IH].
Qed.

Lemma dict_has_set_eq k v d : dict_has k (dict_set k v d) = true.
Proof. unfold dict_has. by rewrite dict_get_set_eq. Qed.

Lemma dict_set_set k v v' d : dict_set k v (dict_set k v' d) = dict_set k v d.
Proof.
  induction d as [|[k' x] d IH]; simpl.
  - by rewrite String.eqb_refl.
  - destruct (String.eqb k k') eqn:Ek; simpl; rewrite Ek; [reflexivity | by rewrite IH].
Qed.

Lemma dict_set_same k v d : dict_get k d = Some v -> dict_set k v d = d.
Proof.
  induction d as [|[k' x] d IH]; simpl; [discriminate|].
  destruct (String.eqb k k') eqn:Ek.
  - by intros [= ->].
  - intros H. by rewrite IH.
Qed.

Lemma dict_del_set_fresh k v d :
  dict_get k d = None -> dict_del k (dict_set k v d) = d.
Proof.
  induction d as [|[k' x] d IH]; simpl.
  - by rewrite String.eqb_refl.
  - destruct (String.eqb k k') eqn:Ek; [discriminate|].
    intros H. simpl. rewrite Ek. by rewrite IH.
Qed.

Lemma dict_get_unique k v d :
  keys_unique (map fst d) = true -> In (k, v) d -> dict_get k d = Some v.
Proof.
  induction d as [|[k' x] d IH]; simpl; [done|].
  intros [Hn Hu]%andb_prop [[= -> ->]|Hin].
  - by rewrite String.eqb_refl.
  - destruct (String.eqb k k') eqn:Ek; [|by apply IH].
    apply String.eqb_eq in Ek. subst k'. exfalso.
    apply negb_true_iff in Hn.
    assert (existsb (String.eqb k) (map fst d) = true); [|congruence].
    apply existsb_exists. exists k. split; [|apply String.eqb_refl].
    apply in_map_iff. by exists (k, v).
Qed.

Lemma py_eq_refl v : py_wf v = true -> py_eq v v = true.
Proof.
  induction v as [| b | z | s | l IH | d IH] using pyval_nested_ind;
    intros Hwf; simpl.
  - reflexivity.
  - by destruct b.
  - apply Z.eqb_refl.
  - apply String.eqb_refl.
  - simpl in Hwf. induction l as [|x l IHl]; [reflexivity|].
    simpl in Hwf. apply andb_prop in Hwf as [Hx Hl].
    inversion IH; subst. rewrite H1 by exact Hx. simpl. by apply IHl.
  - simpl in Hwf. apply andb_prop in Hwf as [Hu Hall].
    rewrite Nat.eqb_refl. simpl.
    assert (Hgen : forall l,
               (forall kv, In kv l -> In kv d) ->
               Forall (fun kv => py_wf (snd kv) = true -> py_eq (snd kv) (snd kv) = true) l ->
               (fix go (l0 : list (string * pyval)) : bool :=
                  match l0 with
                  | [] => true
                  | (_, x) :: t => py_wf x && go t
                  end) l = true ->
               (fix go (l0 : list (string * pyval)) : bool :=
                  match l0 with
                  | [] => true
                  | (k, v) :: t =>
                      match dict_get k d with
                      | Some w => py_eq v w
                      | None => false
                      end && go t
                  end) l = true).
    { induction l as [|[k x] l IHl]; intros Hin HF Hw; [reflexivity|].
      apply andb_prop in Hw as [Hx Hl]. inversion HF; subst.
      rewrite (dict_get_unique k x d Hu) by (apply Hin; by left).
      simpl in H1. rewrite H1 by exact Hx. simpl.
      apply IHl; auto. intros kv Hkv. apply Hin. by right. }
    apply Hgen; auto.
Qed.

(** Anything but a dictionary on the way makes the walk raise. *)
Lemma merge_into_dict c ks fk v r :
  merge_into c ks fk v = Ret r -> exists d, c = PDict d.
Proof.
  destruct c as [| | | |l|d]; [| | | | |eauto]; destruct ks; cbn;
    try discriminate.
  - destruct (str_contains fk s); cbn; discriminate.
  - destruct (str_contains s0 s); cbn; discriminate.
  - destruct (existsb _ l); cbn; discriminate.
  - destruct (existsb _ l); cbn; discriminate.
Qed.

Lemma merge_into_again c ks fk v c' :
  py_eq v v = true ->
  merge_into c ks fk v = Ret (Some c') ->
  merge_into c' ks fk v = Ret None.
Proof.
  intros Hv. revert c c'. induction ks as [|key rest IH]; intros c c' H.
  - destruct (merge_into_dict _ _ _ _ _ H) as [entries ->].
    cbn [merge_into py_contains py_getitem py_setitem res_bind] in *.
    destruct (dict_has fk entries) eqn:Eh.
    + unfold dict_has in Eh. destruct (dict_get fk entries) as [x|]; [|discriminate].
      cbn [res_bind] in H. destruct (py_eq x v); [discriminate|].
      inversion H; subst c'. cbn [merge_into py_contains py_getitem res_bind].
      rewrite dict_has_set_eq, dict_get_set_eq. cbn [res_bind]. by rewrite Hv.
    + cbn [res_bind] in H. inversion H; subst c'.
      cbn [merge_into py_contains py_getitem res_bind].
      rewrite dict_has_set_eq, dict_get_set_eq. cbn [res_bind]. by rewrite Hv.
  - destruct (merge_into_dict _ _ _ _ _ H) as [entries ->].
    cbn [merge_into py_contains res_bind] in H.
    set (c1 := if negb (dict_has key entries)
               then py_setitem (PDict entries) key (PDict [])
               else Ret (PDict entries)) in H.
    assert (Hc1 : exists d1, c1 = Ret (PDict d1) /\ dict_has key d1 = true).
    { unfold c1. destruct (dict_has key entries) eqn:Eh; simpl; eauto.
      eexists. split; [reflexivity|]. apply dict_has_set_eq. }
    destruct Hc1 as (d1 & -> & Hd1). cbn [res_bind py_getitem] in H.
    unfold dict_has in Hd1.
    destruct (dict_get key d1) as [child|] eqn:Eg; [|discriminate].
    cbn [res_bind] in H.
    destruct (merge_into child rest fk v) as [[child'|]|e] eqn:Em;
      try discriminate H.
    cbn [res_bind py_setitem] in H. inversion H; subst c'.
    cbn [merge_into py_contains res_bind]. rewrite dict_has_set_eq.
    cbn [negb res_bind py_getitem]. rewrite dict_get_set_eq. cbn [res_bind].
    by rewrite (IH _ _ Em).
Qed.

Lemma merge_into_fresh c ks fk v :
  fresh_leaf c ks fk = true ->
  exists c', merge_into c ks fk v = Ret (Some c')
             /\ remove_from c' ks fk = Ret (Some c).
Proof.
  revert c. induction ks as [|key rest IH]; intros c H;
    destruct c as [| | | | |entries]; try discriminate H; cbn [fresh_leaf] in H.
  - apply negb_true_iff in H. cbn [merge_into py_contains res_bind].
    rewrite H. cbn [res_bind py_setitem]. eexists. split; [reflexivity|].
    cbn [remove_from py_contains res_bind]. rewrite dict_has_set_eq.
    cbn [negb py_delitem res_bind]. rewrite dict_has_set_eq. cbn [res_bind].
    rewrite dict_del_set_fresh; [reflexivity|].
    unfold dict_has in H. by destruct (dict_get fk entries).
  - destruct (dict_get key entries) as [child|] eqn:Eg; [|discriminate].
    destruct (IH _ H) as (child' & Hm & Hr).
    cbn [merge_into py_contains res_bind]. unfold dict_has at 1. rewrite Eg.
    cbn [negb res_bind py_getitem]. rewrite Eg. cbn [res_bind]. rewrite Hm.
    cbn [res_bind py_setitem]. eexists. split; [reflexivity|].
    cbn [remove_from py_contains res_bind]. rewrite dict_has_set_eq.
    cbn [negb res_bind py_getitem]. rewrite dict_get_set_eq. cbn [res_bind].
    rewrite Hr. cbn [res_bind py_setitem].
    by rewrite dict_set_set, (dict_set_same _ _ _ Eg).
Qed.

Section Installer.
Context {E : Env} {J : JsonLib}.

Lemma enter_calm w : calm -> enter w = files w.
Proof. intros Hc. unfold enter. destruct (Hc (ticks w)) as [_ ->]. reflexivity. Qed.

Lemma write_chunks_calm p cs w x :
  calm ->
  files w !! p = Some x ->
  exists w', write_chunks p cs w = (Ret tt, w')
             /\ files w' = <[p := x +:+ concat_str cs]> (files w).
Proof.
  intros Hc. revert w x. induction cs as [|c cs IH]; intros w x Hx.
  - exists w. split; [reflexivity|]. cbn [concat_str].
    rewrite append_nil_r. symmetry. by apply insert_id.
  - cbn [write_chunks]. unfold bind at 1, write_bytes, syscall.
    destruct (Hc (ticks w)) as [-> _]. rewrite (enter_calm w Hc), Hx.
    destruct (IH (leave w (<[p:=x +:+ c]> (files w)) 0) (x +:+ c))
      as (w' & Hw & Hf); [simpl; apply lookup_insert_eq|].
    exists w'. split; [exact Hw|]. rewrite Hf. simpl.
    rewrite insert_insert_eq. cbn [concat_str]. by rewrite append_assoc.
Qed.

Lemma write_text_calm p s w :
  calm ->
  exists w', write_text p s w = (Ret tt, w')
             /\ files w' = <[p := text_encode s]> (files w).
Proof.
  intros Hc. unfold write_text, bind, open_w, syscall.
  destruct (Hc (ticks w)) as [-> _]. rewrite (enter_calm w Hc).
  unfold write_all.
  destruct (write_chunks_calm p
              (chunks (String.length (text_encode s)) (text_encode s))
              (leave w (<[p:=""]> (files w)) 0) "" Hc)
    as (w' & Hw & Hf); [simpl; apply lookup_insert_eq|].
  exists w'. split; [exact Hw|]. rewrite Hf. simpl.
  rewrite insert_insert_eq, chunks_concat by lia. reflexivity.
Qed.

Lemma load_config_calm path w :
  calm ->
  exists w', load_config path w = (config_of (files w !! path), w')
             /\ files w' = files w.
Proof.
  intros Hc. unfold load_config, bind, try_except, path_exists, read_text,
    syscall, lift, ret, config_of.
  destruct (Hc (ticks w)) as [-> _]. rewrite (enter_calm w Hc).
  destruct (files w !! path) as [b|] eqn:Eb; [|eauto].
  cbn [ticks leave]. destruct (Hc (S (ticks w))) as [-> _].
  rewrite (enter_calm _ Hc). cbn [files leave]. rewrite Eb.
  destruct (utf8_valid b); [|eauto]. cbn zeta.
  destruct (py_truthy _); [|eauto].
  destruct (json_loads _) as [c|e]; [eauto|].
  destruct (is_JSONDecodeError_or_OSError e); eauto.
Qed.

Lemma merge_json_config_calm path key_path value w :
  calm ->
  exists w',
    merge_json_config path key_path value w
    = (match merge_effect (files w !! path) key_path value with
       | Raise e => Raise e
       | Ret None => Ret false
       | Ret (Some _) => Ret true
       end, w')
    /\ files w'
       = match merge_effect (files w !! path) key_path value with
         | Ret (Some c') => <[path := config_bytes c']> (files w)
         | _ => files w
         end.
Proof.
  intros Hc. unfold merge_json_config, merge_effect. unfold bind at 1.
  destruct (load_config_calm path w Hc) as (w1 & -> & F1).
  destruct (config_of (files w !! path)) as [[config|]|e]; cbn [res_bind];
    [|eauto|eauto].
  unfold bind at 1, lift at 1.
  destruct (py_last key_path) as [fk|e]; cbn [res_bind]; [|eauto].
  unfold bind at 1, lift at 1.
  destruct (merge_into config (removelast key_path) fk value) as [[c'|]|e];
    [|eauto|eauto].
  unfold bind at 1, mkdir_parent, os_mkdir, syscall.
  destruct (Hc (ticks w1)) as [-> _]. rewrite (enter_calm w1 Hc).
  unfold bind at 1.
  destruct (write_text_calm path (json_dumps_indent2 c' +:+ nl)
              (leave w1 (files w1) 0) Hc) as (w2 & -> & F2).
  exists w2. split; [reflexivity|]. rewrite F2. simpl. by rewrite F1.
Qed.

Lemma remove_json_config_key_calm path key_path w b :
  calm ->
  files w !! path = Some b ->
  exists w',
    remove_json_config_key path key_path w
    = (match remove_effect b key_path with
       | Raise e => Raise e
       | Ret None => Ret false
       | Ret (Some _) => Ret true
       end, w')
    /\ files w'
       = match remove_effect b key_path with
         | Ret (Some c') => <[path := config_bytes c']> (files w)
         | _ => files w
         end.
Proof.
  intros Hc Hb. unfold remove_json_config_key, remove_effect.
  unfold bind at 1, path_exists, syscall at 1.
  destruct (Hc (ticks w)) as [-> _]. rewrite (enter_calm w Hc), Hb. cbn [negb].
  unfold bind at 1, try_except, bind at 1, read_text, syscall.
  cbn [ticks leave]. destruct (Hc (S (ticks w))) as [-> _].
  rewrite (enter_calm _ Hc). cbn [files leave]. rewrite Hb.
  destruct (utf8_valid b); [|eauto].
  unfold bind at 1, lift at 1.
  destruct (json_loads (universal_newlines b)) as [config|e].
  2:{ destruct (is_JSONDecodeError_or_OSError e); eauto. }
  unfold ret at 1. unfold bind at 1, lift at 1.
  destruct (py_last key_path) as [fk|e]; cbn [res_bind]; [|eauto].
  unfold bind at 1, lift at 1.
  destruct (remove_from config (removelast key_path) fk) as [[c'|]|e];
    [|eauto|eauto].
  unfold bind at 1.
  destruct (write_text_calm path (json_dumps_indent2 c' +:+ nl)
              (leave (leave w (files w) 0) (files w) 0) Hc) as (w2 & -> & F2).
  exists w2. split; [reflexivity|]. rewrite F2. reflexivity.
Qed.

End Installer.

(** * The claims *)

Section Channel.
Context {E : Env} {J : JsonLib}.

Lemma send_command_eq fuel action params w :
  send_command fuel action params w
  = match prepare w with
    | (Raise e, w1) => Some (Raise e, w1)
    | (Ret cmd_id, w1) =>
        match publish (envelope cmd_id action params) w1 with
        | (Raise e, w2) =>
            if is_OSError e then Some (Ret (write_failure cmd_id e), w2)
            else Some (Raise e, w2)
        | (Ret _, w2) =>
            match time_monotonic w2 with
            | (Raise e, w3) => Some (Raise e, w3)
            | (Ret start, w3) => poll_loop fuel cmd_id start w3
            end
        end
    end.
Proof. reflexivity. Qed.

(** After a successful publishing the call is the poll loop, started at
    the clock read next. *)
Lemma send_command_after_publish fuel action params w cmd_id w1 w2 :
  prepare w = (Ret cmd_id, w1) ->
  publish (envelope cmd_id action params) w1 = (Ret tt, w2) ->
  send_command fuel action params w
  = poll_loop fuel cmd_id (now (snd (time_monotonic w2)))
      (snd (time_monotonic w2)).
Proof. intros E1 E2. rewrite send_command_eq, E1, E2. reflexivity. Qed.

(** The command path during a whole call: the bytes it held before, or
    the complete new envelope, which is what it holds in the end when the
    publishing succeeded. *)
Lemma send_command_history fuel action params w cmd_id w1 r2 w2 r w' :
  prepare w = (Ret cmd_id, w1) ->
  publish (envelope cmd_id action params) w1 = (r2, w2) ->
  send_command fuel action params w = Some (r, w') ->
  let old := files w !! CMD_FILE in
  let new := text_encode (json_dumps (envelope cmd_id action params)) in
  grows (fun fs => fs !! CMD_FILE = old \/ fs !! CMD_FILE = Some new) w w'
  /\ files w' !! CMD_FILE = match r2 with Ret _ => Some new | Raise _ => old end.
Proof.
  intros E1 E2 H old new. rewrite send_command_eq, E1, E2 in H.
  destruct (frames_prepare CMD_FILE cmd_not_rsp _ _ _ E1) as [F1 G1].
  destruct (publish_spec _ _ _ _ E2) as [G2 C2]. cbn zeta in G2, C2.
  rewrite F1 in G2, C2. fold old new in G2, C2.
  assert (G12 := grows_trans _ _ _ _
                   (grows_weaken _ _ _ _ (fun fs Hfs => or_introl Hfs) G1) G2).
  destruct C2 as [(-> & Hnew & _)|(msg & -> & Hold)].
  - destruct (time_monotonic w2) as [[start|e] w3] eqn:E3;
      destruct (frames_time_monotonic CMD_FILE cmd_not_rsp _ _ _ E3) as [F3 G3].
    + destruct (poll_loop_same_at CMD_FILE _ _ _ _ _ _ cmd_not_rsp H) as [F4 G4].
      split; [|congruence].
      eapply grows_trans; [exact G12|].
      eapply grows_trans; eapply grows_weaken; try eassumption;
        intros fs ->; right; congruence.
    + inversion H; subst. split; [|congruence].
      eapply grows_trans; [exact G12|].
      eapply grows_weaken; [|exact G3]. intros fs ->. by right.
  - simpl in H. inversion H; subst. split; [exact G12 | exact Hold].
Qed.

(** C1.  Publishing goes through a temporary file inside the channel
    directory that is renamed onto the command path in one step.  For the
    id a call has drawn and whatever its publishing comes to: every state
    of the file system up to there has at the command path what was there
    before the call or the complete new envelope; the publishing succeeds
    unless one of its calls is refused or the name of the temporary file
    is taken; when it succeeds, the state before the last has the
    complete envelope in the temporary file, which is in [IPC_DIR], and
    the old bytes at the command path, the last has the envelope at the
    command path and no temporary file, and the call goes on into the
    poll loop; when it fails, the command path holds what it held and the
    call returns the failure.  The same holds to the end of the call. *)
Theorem atomic_publish fuel action params w cmd_id w1 r2 w2 :
  prepare w = (Ret cmd_id, w1) ->
  publish (envelope cmd_id action params) w1 = (r2, w2) ->
  let old := files w !! CMD_FILE in
  let new := text_encode (json_dumps (envelope cmd_id action params)) in
  let tmp_path := IPC_DIR +:+ "/tmp" +:+ mkstemp_name (ticks w1) +:+ ".tmp" in
  grows (fun fs => fs !! CMD_FILE = old \/ fs !! CMD_FILE = Some new) w w2
  /\ ((forall k, (ticks w1 <= k < ticks w2)%nat -> fault k = None) ->
      files w1 !! tmp_path = None ->
      r2 = Ret tt)
  /\ (r2 = Ret tt ->
      String.prefix (IPC_DIR +:+ "/") tmp_path = true
      /\ (exists before rest,
            history w2 = files w2 :: before :: rest
            /\ before !! tmp_path = Some new
            /\ before !! CMD_FILE = old)
      /\ files w2 !! CMD_FILE = Some new
      /\ files w2 !! tmp_path = None
      /\ send_command fuel action params w
         = poll_loop fuel cmd_id (now (snd (time_monotonic w2)))
             (snd (time_monotonic w2)))
  /\ (r2 <> Ret tt ->
      files w2 !! CMD_FILE = old
      /\ exists msg,
           r2 = Raise (OSError msg)
           /\ send_command fuel action params w
              = Some (Ret (write_failure cmd_id (OSError msg)), w2))
  /\ (forall r w',
        send_command fuel action params w = Some (r, w') ->
        grows (fun fs => fs !! CMD_FILE = old \/ fs !! CMD_FILE = Some new) w w'
        /\ files w' !! CMD_FILE
           = match r2 with Ret _ => Some new | Raise _ => old end).
Proof.
  intros E1 E2 old new tmp_path.
  destruct (frames_prepare CMD_FILE cmd_not_rsp _ _ _ E1) as [F1 G1].
  destruct (publish_spec _ _ _ _ E2) as [G2 C2]. cbn zeta in G2, C2.
  rewrite F1 in G2, C2. fold old new tmp_path in G2, C2.
  split; [|split; [|split; [|split]]].
  - eapply grows_trans; [|exact G2].
    eapply grows_weaken; [|exact G1]. intros fs Hfs. by left.
  - intros Hok Hfree. destruct r2 as [[]|e]; [reflexivity|].
    destruct (publish_refused _ _ _ _ E2) as [(k & msg & Hk & Hf)|[x Hx]].
    + rewrite (Hok k Hk) in Hf. discriminate Hf.
    + fold tmp_path in Hx. rewrite Hfree in Hx. discriminate Hx.
  - intros ->.
    destruct C2 as [(_ & Hnew & Hpre & Hgone & before & rest & Hh & Hb & Hc)
                   |(msg & [=] & _)].
    split; [exact Hpre|]. split; [by exists before, rest|].
    split; [exact Hnew|]. split; [exact Hgone|].
    exact (send_command_after_publish _ _ _ _ _ _ _ E1 E2).
  - intros Hr. destruct C2 as [(-> & _)|(msg & -> & Hold)]; [done|].
    split; [exact Hold|]. exists msg. split; [reflexivity|].
    by rewrite send_command_eq, E1, E2.
  - intros r w' H.
    exact (send_command_history _ _ _ _ _ _ _ _ _ _ E1 E2 H).
Qed.

End Channel.

Section ChannelCalls.
Context {E : Env} {J : JsonLib}.

(** C9.  What a call publishes is the dictionary of the three fields id,
    action and params, in this order, where params is the caller's when
    that is true and the empty dictionary otherwise: never [None], and
    [{}] for [None].  The publishing of just this dictionary succeeds
    unless one of its calls is refused or the name of the temporary file
    is taken; then its serialization is what the command path holds, the
    call goes on into the poll loop, and the command path holds it still
    when the call ends. *)
Theorem envelope_params fuel action params w cmd_id w1 r2 w2 :
  prepare w = (Ret cmd_id, w1) ->
  publish (PDict [("id", PStr cmd_id); ("action", PStr action);
                  ("params", if py_truthy params then params else PDict [])])
    w1 = (r2, w2) ->
  let cmd := PDict [("id", PStr cmd_id); ("action", PStr action);
                    ("params", if py_truthy params then params else PDict [])] in
  let tmp_path := IPC_DIR +:+ "/tmp" +:+ mkstemp_name (ticks w1) +:+ ".tmp" in
  (if py_truthy params then params else PDict []) <> PNone
  /\ (params = PNone ->
      cmd = PDict [("id", PStr cmd_id); ("action", PStr action);
                   ("params", PDict [])])
  /\ ((forall k, (ticks w1 <= k < ticks w2)%nat -> fault k = None) ->
      files w1 !! tmp_path = None ->
      r2 = Ret tt)
  /\ (r2 = Ret tt ->
      files w2 !! CMD_FILE = Some (text_encode (json_dumps cmd))
      /\ send_command fuel action params w
         = poll_loop fuel cmd_id (now (snd (time_monotonic w2)))
             (snd (time_monotonic w2))
      /\ (forall r w',
            send_command fuel action params w = Some (r, w') ->
            files w' !! CMD_FILE = Some (text_encode (json_dumps cmd)))).
Proof.
  intros E1 E2 cmd tmp_path.
  change (PDict [("id", PStr cmd_id); ("action", PStr action);
                 ("params", if py_truthy params then params else PDict [])])
    with (envelope cmd_id action params) in *.
  split; [|split; [|split]].
  - destruct (py_truthy params) eqn:T; [|discriminate].
    intros ->. discriminate T.
  - intros ->. reflexivity.
  - intros Hok Hfree. destruct r2 as [[]|e]; [reflexivity|].
    destruct (publish_refused _ _ _ _ E2) as [(k & msg & Hk & Hf)|[x Hx]].
    + rewrite (Hok k Hk) in Hf. discriminate Hf.
    + fold tmp_path in Hx. rewrite Hfree in Hx. discriminate Hx.
  - intros ->.
    destruct (publish_spec _ _ _ _ E2) as [_ [(_ & Hnew & _)|(msg & [=] & _)]].
    split; [exact Hnew|].
    split; [exact (send_command_after_publish _ _ _ _ _ _ _ E1 E2)|].
    intros r w' H.
    destruct (send_command_history _ _ _ _ _ _ _ _ _ _ E1 E2 H) as [_ Hf].
    exact Hf.
Qed.

(** C5.  When the body of the second [try] raises, what it raises is an
    [OSError]; the call then returns the failure dictionary (success
    false, the error text naming the cause) in the very world the failure
    left: no further system call, whatever the fuel, so no polling and no
    second attempt; the command path still holds what it held. *)
Theorem publish_failure_is_immediate action params w cmd_id w1 e w2 :
  prepare w = (Ret cmd_id, w1) ->
  publish (envelope cmd_id action params) w1 = (Raise e, w2) ->
  (exists msg, e = OSError msg)
  /\ (forall fuel,
        send_command fuel action params w
        = Some (Ret (write_failure cmd_id e), w2))
  /\ py_get (write_failure cmd_id e) "success" = Ret (PBool false)
  /\ py_get (write_failure cmd_id e) "error"
     = Ret (PStr ("Failed to write command file: " +:+ exn_str e))
  /\ files w2 !! CMD_FILE = files w !! CMD_FILE.
Proof.
  intros E1 E2.
  destruct (frames_prepare CMD_FILE cmd_not_rsp _ _ _ E1) as [F1 _].
  destruct (publish_spec _ _ _ _ E2) as [_ [([=] & _)|(msg & [= ->] & Hold)]].
  split; [by exists msg|]. split; [|split; [|split]]; try reflexivity.
  - intros fuel. rewrite send_command_eq, E1, E2. reflexivity.
  - congruence.
Qed.

End ChannelCalls.

Section QuietScenario.
#[local] Existing Instance PyJson.lib.
#[local] Existing Instance Demo.quiet.

Lemma atomic_publish_witness :
  let run := send_command 8 "ping" PNone Demo.boot in
  let new := text_encode (json_dumps (envelope (uuid4 2) "ping" PNone)) in
  let tmp_path := IPC_DIR +:+ "/tmp" +:+ mkstemp_name 4 +:+ ".tmp" in
  grows (fun fs => fs !! CMD_FILE = None \/ fs !! CMD_FILE = Some new)
    Demo.boot (Demo.final run)
  /\ files (Demo.final run) !! CMD_FILE = Some new
  /\ exists before rest,
       history (snd (publish (envelope (uuid4 2) "ping" PNone)
                       (snd (prepare Demo.boot))))
       = files (snd (publish (envelope (uuid4 2) "ping" PNone)
                       (snd (prepare Demo.boot))))
         :: before :: rest
       /\ before !! tmp_path = Some new
       /\ before !! CMD_FILE = None.
Proof.
  intros run new tmp_path.
  destruct (atomic_publish 8 "ping" PNone Demo.boot (uuid4 2)
              (snd (prepare Demo.boot)) (Ret tt)
              (snd (publish (envelope (uuid4 2) "ping" PNone)
                      (snd (prepare Demo.boot)))))
    as (_ & _ & Hok & _ & Hend); [vm_compute; reflexivity..|].
  destruct (Hok eq_refl) as (_ & (before & rest & Hh & Hb & Hc) & _).
  destruct (Hend (Demo.outcome run) (Demo.final run)) as [Hg Hf];
    [vm_compute; reflexivity|].
  split; [exact Hg|]. split; [exact Hf|].
  exists before, rest. split; [exact Hh|]. split; [exact Hb | exact Hc].
Defined.

Lemma envelope_params_witness :
  let run := send_command 8 "ping" PNone Demo.boot in
  files (Demo.final run) !! CMD_FILE
  = Some (text_encode
            (json_dumps (PDict [("id", PStr (uuid4 2)); ("action", PStr "ping");
                                ("params", PDict [])]))).
Proof.
  intros run.
  destruct (envelope_params 8 "ping" PNone Demo.boot (uuid4 2)
              (snd (prepare Demo.boot)) (Ret tt)
              (snd (publish (envelope (uuid4 2) "ping" PNone)
                      (snd (prepare Demo.boot)))))
    as (_ & _ & _ & Hok); [vm_compute; reflexivity..|].
  destruct (Hok eq_refl) as (_ & _ & Hend).
  apply (Hend (Demo.outcome run)). vm_compute. reflexivity.
Defined.

End QuietScenario.

Section DiskFullScenario.
#[local] Existing Instance PyJson.lib.
#[local] Existing Instance Demo.disk_full.

Lemma publish_failure_is_immediate_witness :
  let cmd_id := uuid4 2 in
  let w1 := snd (prepare Demo.boot) in
  let e := OSError "[Errno 28] No space left on device" in
  let w2 := snd (publish (envelope cmd_id "ping" PNone) w1) in
  (exists msg, e = OSError msg)
  /\ (forall fuel,
        send_command fuel "ping" PNone Demo.boot
        = Some (Ret (write_failure cmd_id e), w2))
  /\ py_get (write_failure cmd_id e) "success" = Ret (PBool false)
  /\ py_get (write_failure cmd_id e) "error"
     = Ret (PStr ("Failed to write command file: " +:+ exn_str e))
  /\ files w2 !! CMD_FILE = files Demo.boot !! CMD_FILE.
Proof.
  intros cmd_id w1 e w2.
  apply (publish_failure_is_immediate "ping" PNone Demo.boot cmd_id w1 e w2).
  - vm_compute. reflexivity.
  - vm_compute. reflexivity.
Defined.

End DiskFullScenario.

Section ChannelPolling.
Context {E : Env} {J : JsonLib}.


(** C3, as the code has it.  A pass that finds a response whose id is not
    the outstanding one (the listener idle and none of its three calls
    refused) returns nothing and has deleted the file: after its three
    system calls the response path is empty.  The loop then sleeps and
    goes on. *)
Theorem stale_response_discarded cmd_id w b :
  host (ticks w) = HostIdle ->
  host (S (ticks w)) = HostIdle ->
  host (S (S (ticks w))) = HostIdle ->
  fault (ticks w) = None ->
  fault (S (ticks w)) = None ->
  fault (S (S (ticks w))) = None ->
  files w !! RSP_FILE = Some b ->
  stale cmd_id b ->
  exists w',
    poll_cycle cmd_id w = (Ret None, w')
    /\ files w' !! RSP_FILE = None
    /\ ticks w' = (ticks w + 3)%nat
    /\ (forall fuel start w0,
          time_monotonic w0 = (Ret (now w), w) ->
          lt_float (now w - start) TIMEOUT = true ->
          poll_loop (S fuel) cmd_id start w0
          = match time_sleep POLL_INTERVAL w' with
            | (Ret _, w3) => poll_loop fuel cmd_id start w3
            | (Raise e, w3) => Some (Raise e, w3)
            end).
Proof.
  intros H0 H1 H2 F0 F1 F2 Hb (Hu & d & rid & Hj & Hg & Hq).
  assert (He0 : enter w = files w) by (unfold enter; by rewrite H0).
  set (w1 := leave w (enter w) 0).
  assert (He1 : enter w1 = files w).
  { unfold enter, w1. cbn [ticks files leave]. by rewrite H1. }
  set (w2 := leave w1 (enter w1) 0).
  assert (He2 : enter w2 = files w).
  { unfold enter, w2. cbn [ticks files leave]. fold (enter w1).
    unfold w1 at 1. cbn [ticks leave]. by rewrite H2. }
  assert (Ec : poll_cycle cmd_id w
               = (Ret None, leave w2 (delete RSP_FILE (enter w2)) 0)).
  { rewrite poll_cycle_eq. cbn zeta. fold w1. fold w2.
    rewrite F0, He0, Hb. cbn [ticks leave w1 w2]. rewrite F1.
    fold w1. rewrite He1, Hb, Hu. fold w2. cbn [ticks leave w1 w2].
    rewrite F2. unfold after_parse. rewrite Hj, Hg, Hq. reflexivity. }
  eexists. split; [exact Ec|]. split; [|split].
  - simpl. apply lookup_delete_eq.
  - simpl. lia.
  - intros fuel start w0 Em Ht. rewrite poll_loop_S, Em, Ht, Ec.
    by destruct (time_sleep POLL_INTERVAL _) as [[[]|e] w3].
Qed.


(** C6 fails on the code.  A pass that reads bytes that are not UTF-8,
    as a response caught half written can be, raises
    [UnicodeDecodeError] and leaves the file where it is; a pass that
    reads text on which [json.loads] raises anything but
    [JSONDecodeError], as it does [RecursionError] on text that nests too
    deep, raises that.  Neither is ignored: the exception ends the loop
    and the call. *)
Theorem malformed_response_raises cmd_id w b :
  host (ticks w) = HostIdle ->
  host (S (ticks w)) = HostIdle ->
  host (S (S (ticks w))) = HostIdle ->
  fault (ticks w) = None ->
  fault (S (ticks w)) = None ->
  fault (S (S (ticks w))) = None ->
  files w !! RSP_FILE = Some b ->
  (utf8_valid b = true -> exists e, json_loads (universal_newlines b) = Raise e
                                    /\ is_JSONDecodeError_or_OSError e = false) ->
  exists e w',
    poll_cycle cmd_id w = (Raise e, w')
    /\ (utf8_valid b = false ->
        e = UnicodeDecodeError /\ files w' !! RSP_FILE = Some b)
    /\ (utf8_valid b = true -> json_loads (universal_newlines b) = Raise e)
    /\ (forall fuel start w0,
          time_monotonic w0 = (Ret (now w), w) ->
          lt_float (now w - start) TIMEOUT = true ->
          poll_loop (S fuel) cmd_id start w0 = Some (Raise e, w')).
Proof.
  intros H0 H1 H2 F0 F1 F2 Hb Hbad.
  assert (He0 : enter w = files w) by (unfold enter; by rewrite H0).
  assert (He1 : enter (leave w (files w) 0) = files w).
  { unfold enter. cbn [ticks files leave]. by rewrite H1. }
  assert (He2 : enter (leave (leave w (files w) 0) (files w) 0) = files w).
  { unfold enter. cbn [ticks files leave]. by rewrite H2. }
  pose proof (poll_cycle_eq cmd_id w) as Ec. cbn zeta in Ec.
  rewrite F0, !He0, !He1, !He2 in Ec. cbn [ticks leave] in Ec.
  rewrite Hb, F1 in Ec.
  assert (Hloop : forall e w',
             poll_cycle cmd_id w = (Raise e, w') ->
             forall fuel start w0,
               time_monotonic w0 = (Ret (now w), w) ->
               lt_float (now w - start) TIMEOUT = true ->
               poll_loop (S fuel) cmd_id start w0 = Some (Raise e, w')).
  { intros e w' Hc fuel start w0 Em Ht. by rewrite poll_loop_S, Em, Ht, Hc. }
  destruct (utf8_valid b) eqn:Hu.
  - destruct (Hbad eq_refl) as (e & Hj & He). rewrite F2 in Ec.
    unfold after_parse in Ec. rewrite Hj, He in Ec.
    exists e. eexists. split; [exact Ec|]. split; [discriminate|].
    split; [by intros _|]. by apply Hloop.
  - exists UnicodeDecodeError. eexists. split; [exact Ec|].
    split; [|split; [discriminate|by apply Hloop]].
    intros _. split; [reflexivity|]. simpl. exact Hb.
Qed.

End ChannelPolling.

Section LeftoverScenario.
#[local] Existing Instance PyJson.lib.
#[local] Existing Instance Demo.quiet.


(** C3 as stated fails: the response with the old id is not returned, but
    neither is it left where it was; the pass that read it has deleted
    it. *)
Lemma stale_response_left_on_disk_counterexample :
  stale (uuid4 0) (Demo.response_bytes Demo.old_id)
  /\ files Demo.leftover !! RSP_FILE = Some (Demo.response_bytes Demo.old_id)
  /\ fst (poll_cycle (uuid4 0) Demo.leftover) = Ret None
  /\ files (snd (poll_cycle (uuid4 0) Demo.leftover)) !! RSP_FILE = None.
Proof.
  split; [|vm_compute; auto].
  split; [vm_compute; reflexivity|].
  eexists _, _. split; [vm_compute; reflexivity|]. split; vm_compute; reflexivity.
Qed.

Lemma stale_response_discarded_witness :
  exists w',
    poll_cycle (uuid4 0) Demo.leftover = (Ret None, w')
    /\ files w' !! RSP_FILE = None
    /\ ticks w' = 3%nat.
Proof.
  destruct (stale_response_discarded (uuid4 0) Demo.leftover
              (Demo.response_bytes Demo.old_id))
    as (w' & Hc & Hf & Ht & _); try (vm_compute; reflexivity).
  - split; [vm_compute; reflexivity|].
    eexists _, _. split; [vm_compute; reflexivity|].
    split; vm_compute; reflexivity.
  - exists w'. auto.
Defined.



End LeftoverScenario.

Section HalfWrittenScenario.
#[local] Existing Instance PyJson.lib.
#[local] Existing Instance Demo.quiet.

Lemma malformed_response_raises_witness :
  (exists w', poll_cycle (uuid4 0) Cases.half_written
              = (Raise UnicodeDecodeError, w')
              /\ files w' !! RSP_FILE = Some Cases.half_written_bytes)
  /\ (exists w', poll_cycle (uuid4 0) Cases.too_deep = (Raise RecursionError, w')).
Proof.
  split.
  - destruct (malformed_response_raises (uuid4 0) Cases.half_written
                Cases.half_written_bytes)
      as (e & w' & Hc & Hbytes & _); try (vm_compute; reflexivity).
    + intros Hu. vm_compute in Hu. discriminate Hu.
    + destruct Hbytes as [-> Hf]; [vm_compute; reflexivity|]. eauto.
  - destruct (malformed_response_raises (uuid4 0) Cases.too_deep
                (Cases.nested (S PyJson.recursion_limit)))
      as (e & w' & Hc & _ & Hj & _); try (vm_compute; reflexivity).
    + intros _. exists RecursionError. split; vm_compute; reflexivity.
    + assert (Hu : utf8_valid (Cases.nested (S PyJson.recursion_limit)) = true)
        by (vm_compute; reflexivity).
      specialize (Hj Hu). vm_compute in Hj. inversion Hj; subst e. eauto.
Defined.

End HalfWrittenScenario.

(** C7 fails on the code: a response that is valid JSON but not an object
    makes [response.get] raise [AttributeError], which the handler for
    [JSONDecodeError] and [OSError] lets through; so do bytes that are not
    UTF-8, and a directory that cannot be created. *)
Theorem send_command_raises :
  Demo.outcome (@send_command Demo.list_reply PyJson.lib 8 "ping" PNone Demo.boot)
  = Raise AttributeError
  /\ Demo.outcome (@send_command Demo.null_reply PyJson.lib 8 "ping" PNone Demo.boot)
     = Raise AttributeError
  /\ Demo.outcome
       (@send_command Demo.half_written_reply PyJson.lib 8 "ping" PNone Demo.boot)
     = Raise UnicodeDecodeError
  /\ Demo.outcome
       (@send_command Demo.mkdir_refused PyJson.lib 8 "ping" PNone Demo.boot)
     = Raise (OSError "[Errno 13] Permission denied").
Proof. repeat split; vm_compute; reflexivity. Qed.

Section InstallerClaims.
Context {E : Env} {J : JsonLib}.

(** C8, as the code has it.  On a calm system, with a value whose
    dictionaries have one entry per key and a [json] module that reads
    back the configuration the merge writes: when a merge returns, the
    same merge again returns false and leaves every file as it is.
    Removing the key after the merge gives back the configuration there
    was before it when every key of the path but the last was already
    there and the last was not; the removal deletes the last key only. *)
Theorem merge_twice_then_remove path key_path value w b w1 :
  calm ->
  py_wf value = true ->
  (forall c0 final_key c1,
      config_of (files w !! path) = Ret (Some c0) ->
      py_last key_path = Ret final_key ->
      merge_into c0 (removelast key_path) final_key value = Ret (Some c1) ->
      round_trips c1) ->
  merge_json_config path key_path value w = (Ret b, w1) ->
  (exists w2,
      merge_json_config path key_path value w1 = (Ret false, w2)
      /\ files w2 = files w1)
  /\ (forall c0 final_key,
        config_of (files w !! path) = Ret (Some c0) ->
        py_last key_path = Ret final_key ->
        fresh_leaf c0 (removelast key_path) final_key = true ->
        b = true
        /\ exists w3,
             remove_json_config_key path key_path w1 = (Ret true, w3)
             /\ files w3 = <[path := config_bytes c0]> (files w)).
Proof.
  intros Hc Hwf Hrt Hm.
  destruct (merge_json_config_calm path key_path value w Hc) as (w1' & Hm' & F1).
  rewrite Hm in Hm'. inversion Hm' as [[Hb Hw]]. subst w1'. clear Hm'.
  unfold merge_effect in Hb, F1.
  destruct (config_of (files w !! path)) as [[c0|]|e] eqn:Ec0;
    cbn [res_bind] in Hb, F1; [| |discriminate Hb].
  2:{ (* the file did not parse: nothing changes, nothing will *)
      split; [|intros ? ? [=]].
      destruct (merge_json_config_calm path key_path value w1 Hc) as (w2 & Hm2 & F2).
      unfold merge_effect in Hm2, F2. rewrite F1, Ec0 in Hm2, F2.
      cbn [res_bind] in Hm2, F2. exists w2. split; [exact Hm2|]. by rewrite F2, F1. }
  destruct (py_last key_path) as [fk|e] eqn:Ek; cbn [res_bind] in Hb, F1;
    [|discriminate Hb].
  destruct (merge_into c0 (removelast key_path) fk value) as [[c1|]|e] eqn:Em;
    [| |discriminate Hb].
  - (* the merge wrote [c1] *)
    destruct (Hrt c0 fk c1 eq_refl eq_refl Em) as (Ru & Rs & Rj).
    assert (Hfile : files w1 !! path = Some (config_bytes c1))
      by (rewrite F1; apply lookup_insert_eq).
    assert (Hcfg1 : config_of (files w1 !! path) = Ret (Some c1)).
    { rewrite Hfile. unfold config_of. rewrite Ru. cbn zeta. by rewrite Rs, Rj. }
    split.
    + destruct (merge_json_config_calm path key_path value w1 Hc) as (w2 & Hm2 & F2).
      unfold merge_effect in Hm2, F2. rewrite Hcfg1 in Hm2, F2.
      cbn [res_bind] in Hm2, F2. rewrite Ek in Hm2, F2. cbn [res_bind] in Hm2, F2.
      rewrite (merge_into_again _ _ _ _ _ (py_eq_refl _ Hwf) Em) in Hm2, F2.
      exists w2. split; [exact Hm2 | exact F2].
    + intros c0' fk' [= <-] [= <-] Hfresh.
      split; [by inversion Hb|].
      destruct (merge_into_fresh c0 (removelast key_path) fk value Hfresh)
        as (c1' & Em' & Hr). rewrite Em in Em'. inversion Em'; subst c1'.
      destruct (remove_json_config_key_calm path key_path w1 _ Hc Hfile)
        as (w3 & Hr3 & F3).
      unfold remove_effect in Hr3, F3. rewrite Ru, Rj in Hr3, F3.
      rewrite Ek in Hr3, F3. cbn [res_bind] in Hr3, F3. rewrite Hr in Hr3, F3.
      exists w3. split; [exact Hr3|]. rewrite F3, F1. apply insert_insert_eq.
  - (* already configured: nothing changes, nothing will *)
    split.
    + destruct (merge_json_config_calm path key_path value w1 Hc) as (w2 & Hm2 & F2).
      unfold merge_effect in Hm2, F2. rewrite F1, Ec0 in Hm2, F2.
      cbn [res_bind] in Hm2, F2. rewrite Ek in Hm2, F2. cbn [res_bind] in Hm2, F2.
      rewrite Em in Hm2, F2. exists w2. split; [exact Hm2|]. by rewrite F2, F1.
    + intros c0' fk' [= <-] [= <-] Hfresh.
      destruct (merge_into_fresh c0 (removelast key_path) fk value Hfresh)
        as (c1' & Em' & _). congruence.
Qed.

(** C10, as the code has it.  When the file exists, the check for it is
    not refused, and either reading it is refused, or its text is UTF-8,
    has something other than white space and makes [json.loads] raise
    [JSONDecodeError], the merge returns false and the file system is as
    it was. *)
Theorem merge_skips_unparseable path key_path value w b :
  host (ticks w) = HostIdle ->
  host (S (ticks w)) = HostIdle ->
  fault (ticks w) = None ->
  files w !! path = Some b ->
  (is_Some (fault (S (ticks w)))
   \/ (utf8_valid b = true
       /\ py_truthy (PStr (str_strip (universal_newlines b))) = true
       /\ json_loads (universal_newlines b) = Raise JSONDecodeError)) ->
  exists w',
    merge_json_config path key_path value w = (Ret false, w')
    /\ files w' = files w.
Proof.
  intros H0 H1 F0 Hb Hcase.
  assert (He0 : enter w = files w) by (unfold enter; by rewrite H0).
  assert (He1 : enter (leave w (files w) 0) = files w).
  { unfold enter. cbn [ticks files leave]. by rewrite H1. }
  unfold merge_json_config, load_config, bind, try_except, path_exists,
    read_text, syscall, lift, ret.
  rewrite F0, He0, Hb. cbn [ticks leave]. rewrite He1.
  destruct Hcase as [[msg ->]|(Hu & Hs & Hj)].
  - eexists. split; reflexivity.
  - destruct (fault (S (ticks w))); [eexists; split; reflexivity|].
    rewrite Hb, Hu, Hs, Hj. eexists. split; reflexivity.
Qed.

End InstallerClaims.

Section InstallerScenario.
#[local] Existing Instance PyJson.lib.
#[local] Existing Instance Demo.quiet.

Lemma quiet_is_calm : calm.
Proof. intros k. split; reflexivity. Qed.

Lemma merge_twice_then_remove_witness :
  (exists w2,
      merge_json_config Demo.claude_code_config ["reaper"] Demo.server_entry
        (snd (merge_json_config Demo.claude_code_config ["reaper"]
                Demo.server_entry Demo.boot))
      = (Ret false, w2)
      /\ files w2
         = files (snd (merge_json_config Demo.claude_code_config ["reaper"]
                         Demo.server_entry Demo.boot)))
  /\ exists w3,
       remove_json_config_key Demo.claude_code_config ["reaper"]
         (snd (merge_json_config Demo.claude_code_config ["reaper"]
                 Demo.server_entry Demo.boot))
       = (Ret true, w3)
       /\ files w3 !! Demo.claude_code_config = Some ("{}" +:+ nl).
Proof.
  destruct (merge_twice_then_remove Demo.claude_code_config ["reaper"]
              Demo.server_entry Demo.boot true
              (snd (merge_json_config Demo.claude_code_config ["reaper"]
                      Demo.server_entry Demo.boot)))
    as [Hagain Hremove].
  - exact quiet_is_calm.
  - vm_compute. reflexivity.
  - intros c0 fk c1 H0 Hk Hm. vm_compute in H0, Hk.
    inversion H0; subst c0. inversion Hk; subst fk.
    vm_compute in Hm. inversion Hm; subst c1.
    repeat split; vm_compute; reflexivity.
  - vm_compute. reflexivity.
  - split; [exact Hagain|].
    destruct (Hremove (PDict []) "reaper") as (_ & w3 & Hr & Hf);
      try (vm_compute; reflexivity).
    exists w3. split; [exact Hr|]. rewrite Hf. apply lookup_insert_eq.
Defined.

(** C8 as stated fails: Claude Desktop's file holds an empty object; the
    merge under ["mcpServers"; "reaper"] creates the level "mcpServers",
    the removal deletes "reaper" only, and the file ends with a key it did
    not have. *)
Lemma remove_leaves_created_level_counterexample :
  fst (merge_json_config Demo.claude_desktop_config ["mcpServers"; "reaper"]
         Demo.server_entry Demo.empty_desktop_config)
  = Ret true
  /\ fst (remove_json_config_key Demo.claude_desktop_config
            ["mcpServers"; "reaper"]
            (snd (merge_json_config Demo.claude_desktop_config
                    ["mcpServers"; "reaper"] Demo.server_entry
                    Demo.empty_desktop_config)))
     = Ret true
  /\ json_loads <$> files Demo.empty_desktop_config !! Demo.claude_desktop_config
     = Some (Ret (PDict []))
  /\ json_loads
     <$> files (snd (remove_json_config_key Demo.claude_desktop_config
                       ["mcpServers"; "reaper"]
                       (snd (merge_json_config Demo.claude_desktop_config
                               ["mcpServers"; "reaper"] Demo.server_entry
                               Demo.empty_desktop_config))))
         !! Demo.claude_desktop_config
     = Some (Ret (PDict [("mcpServers", PDict [])])).
Proof. repeat split; vm_compute; reflexivity. Qed.

Lemma merge_skips_unparseable_witness :
  exists w',
    merge_json_config Demo.claude_code_config ["reaper"] Demo.server_entry
      Demo.broken_code_config
    = (Ret false, w')
    /\ files w' = files Demo.broken_code_config.
Proof.
  apply (merge_skips_unparseable Demo.claude_code_config ["reaper"]
           Demo.server_entry Demo.broken_code_config "{oops").
  - reflexivity.
  - reflexivity.
  - reflexivity.
  - vm_compute. reflexivity.
  - right. repeat split; vm_compute; reflexivity.
Defined.

(** C10 as stated fails: a file that holds one space is not empty and
    does not parse as JSON, yet the merge takes it for an empty
    configuration, overwrites it and returns true. *)
Lemma blank_config_overwritten_counterexample :
  files Demo.blank_code_config !! Demo.claude_code_config = Some " "
  /\ json_loads " " = Raise JSONDecodeError
  /\ fst (merge_json_config Demo.claude_code_config ["reaper"]
            Demo.server_entry Demo.blank_code_config)
     = Ret true
  /\ files (snd (merge_json_config Demo.claude_code_config ["reaper"]
                   Demo.server_entry Demo.blank_code_config))
     !! Demo.claude_code_config
     = Some (json_dumps_indent2 (PDict [("reaper", Demo.server_entry)]) +:+ nl).
Proof. repeat split; vm_compute; reflexivity. Qed.

End InstallerScenario.


(** * More of the channel *)

Section ChannelMore.
Context {E : Env} {J : JsonLib}.

(** A pass with the listener idle that finds readable UTF-8 bytes: the
    file is unlinked before the bytes are parsed, and stays when the
    unlink is refused. *)
Lemma poll_cycle_idle cmd_id w b :
  host (ticks w) = HostIdle ->
  host (S (ticks w)) = HostIdle ->
  host (S (S (ticks w))) = HostIdle ->
  fault (ticks w) = None ->
  fault (S (ticks w)) = None ->
  files w !! RSP_FILE = Some b ->
  utf8_valid b = true ->
  poll_cycle cmd_id w
  = let w2 := leave (leave w (files w) 0) (files w) 0 in
    match fault (S (S (ticks w))) with
    | Some _ => (Ret None, leave w2 (files w) 0)
    | None => after_parse cmd_id b (leave w2 (delete RSP_FILE (files w)) 0)
    end.
Proof.
  intros H0 H1 H2 F0 F1 Hb Hu.
  assert (He0 : enter w = files w) by (unfold enter; by rewrite H0).
  assert (He1 : enter (leave w (files w) 0) = files w).
  { unfold enter. cbn [ticks files leave]. by rewrite H1. }
  assert (He2 : enter (leave (leave w (files w) 0) (files w) 0) = files w).
  { unfold enter. cbn [ticks files leave]. by rewrite H2. }
  rewrite poll_cycle_eq. cbn zeta.
  rewrite F0, !He0, !He1, !He2. cbn [ticks leave]. by rewrite Hb, F1, Hu.
Qed.

(** What [send_command] returns is always a dictionary: the two
    dictionaries it builds itself, or a response on which [get] worked. *)
Lemma send_command_dict fuel action params w d w' :
  send_command fuel action params w = Some (Ret d, w') ->
  exists entries, d = PDict entries.
Proof.
  intros H. rewrite send_command_eq in H.
  destruct (prepare w) as [[cmd_id|e] w1]; [|discriminate].
  destruct (publish _ w1) as [[[]|e] w2].
  - destruct (time_monotonic w2) as [[start|e] w3]; [|discriminate].
    destruct (poll_loop_ret _ _ _ _ _ _ H) as [->|(rid & Hg & _)].
    + by eexists.
    + destruct d; try discriminate Hg. by eexists.
  - destruct (is_OSError e); [|discriminate]. inversion H. by eexists.
Qed.

(** X1.  The pass that reads a response with the outstanding id (none
    of its three calls refused) returns it as parsed, whatever else it
    holds, and has deleted the file; the loop returns it at once, without
    sleeping. *)
Theorem matching_response_returned cmd_id w b v :
  host (ticks w) = HostIdle ->
  host (S (ticks w)) = HostIdle ->
  host (S (S (ticks w))) = HostIdle ->
  fault (ticks w) = None ->
  fault (S (ticks w)) = None ->
  fault (S (S (ticks w))) = None ->
  files w !! RSP_FILE = Some b ->
  utf8_valid b = true ->
  answers cmd_id b v ->
  exists w',
    poll_cycle cmd_id w = (Ret (Some v), w')
    /\ files w' !! RSP_FILE = None
    /\ ticks w' = (ticks w + 3)%nat
    /\ (forall fuel start w0,
          time_monotonic w0 = (Ret (now w), w) ->
          lt_float (now w - start) TIMEOUT = true ->
          poll_loop (S fuel) cmd_id start w0 = Some (Ret v, w')).
Proof.
  intros H0 H1 H2 F0 F1 F2 Hb Hu (Hj & rid & Hg & Hq).
  pose proof (poll_cycle_idle cmd_id w b H0 H1 H2 F0 F1 Hb Hu) as Ec.
  cbn zeta in Ec. rewrite F2 in Ec. unfold after_parse in Ec.
  rewrite Hj, Hg, Hq in Ec.
  eexists. split; [exact Ec|]. split; [|split].
  - simpl. apply lookup_delete_eq.
  - simpl. lia.
  - intros fuel start w0 Em Ht. by rewrite poll_loop_S, Em, Ht, Ec.
Qed.

(** X2.  The command file is never removed: once published, the envelope
    is still at the command path when the call ends, answered, timed out
    or raising. *)
Theorem command_file_stays fuel action params w cmd_id w1 w2 r w' :
  prepare w = (Ret cmd_id, w1) ->
  publish (envelope cmd_id action params) w1 = (Ret tt, w2) ->
  send_command fuel action params w = Some (r, w') ->
  files w' !! CMD_FILE
  = Some (text_encode (json_dumps (envelope cmd_id action params))).
Proof.
  intros E1 E2 H. rewrite send_command_eq, E1, E2 in H.
  destruct (publish_spec _ _ _ _ E2) as [_ [(_ & Hnew & _)|(msg & [=] & _)]].
  destruct (time_monotonic w2) as [[start|e] w3] eqn:E3;
    destruct (frames_time_monotonic CMD_FILE cmd_not_rsp _ _ _ E3) as [F3 _].
  - destruct (poll_loop_same_at CMD_FILE _ _ _ _ _ _ cmd_not_rsp H) as [F4 _].
    congruence.
  - inversion H; subst. congruence.
Qed.

(** X3.  The temporary file is never cleaned up: when [mkstemp] has
    made it and a write or the rename is then refused, the call returns
    its failure dictionary and the file is still in the directory. *)
Theorem temp_file_left_behind fuel action params w cmd_id w1 e w2 :
  prepare w = (Ret cmd_id, w1) ->
  fault (ticks w1) = None ->
  enter w1 !! (IPC_DIR +:+ "/tmp" +:+ mkstemp_name (ticks w1) +:+ ".tmp") = None ->
  publish (envelope cmd_id action params) w1 = (Raise e, w2) ->
  send_command fuel action params w = Some (Ret (write_failure cmd_id e), w2)
  /\ is_Some (files w2 !! (IPC_DIR +:+ "/tmp" +:+ mkstemp_name (ticks w1) +:+ ".tmp")).
Proof.
  intros E1 Hf Hfresh E2. split.
  - destruct (publish_spec _ _ _ _ E2) as [_ [([=] & _)|(msg & [= ->] & _)]].
    by rewrite send_command_eq, E1, E2.
  - unfold publish in E2. unfold bind at 1 in E2.
    unfold mkstemp at 1, syscall at 1 in E2. rewrite Hf, Hfresh in E2.
    set (p := IPC_DIR +:+ "/tmp" +:+ mkstemp_name (ticks w1) +:+ ".tmp") in *.
    assert (Hpr : p <> RSP_FILE) by apply tmp_not_rsp.
    set (wa := leave w1 (<[p:=""]> (enter w1)) 0) in *.
    assert (Ha : files wa !! p = Some "") by (simpl; apply lookup_insert_eq).
    unfold bind at 1 in E2.
    destruct (write_all p _ wa) as [[[]|e'] wb] eqn:Ew;
      destruct (write_chunks_spec p _ wa "" _ _ Hpr Ha Ew)
        as [[Hr Hc]|(msg & Hr & Hs)]; try discriminate Hr.
    + unfold os_replace, syscall in E2.
      pose proof (enter_lookup_ne p wb Hpr) as Hp2. rewrite Hc in Hp2.
      destruct (fault (ticks wb)).
      * inversion E2; subst. simpl. rewrite Hp2. eauto.
      * rewrite Hp2 in E2. discriminate E2.
    + inversion E2; subst. exact Hs.
Qed.

(** X4.  When the unlink is refused, the check and the read before it
    having gone through, the response that was read is neither parsed
    nor returned, even one with the outstanding id; it is still at the
    response path for the next pass. *)
Theorem unlink_refused_keeps_response cmd_id w b msg :
  host (ticks w) = HostIdle ->
  host (S (ticks w)) = HostIdle ->
  host (S (S (ticks w))) = HostIdle ->
  fault (ticks w) = None ->
  fault (S (ticks w)) = None ->
  fault (S (S (ticks w))) = Some msg ->
  files w !! RSP_FILE = Some b ->
  utf8_valid b = true ->
  exists w',
    poll_cycle cmd_id w = (Ret None, w')
    /\ files w' !! RSP_FILE = Some b.
Proof.
  intros H0 H1 H2 F0 F1 F2 Hb Hu.
  pose proof (poll_cycle_idle cmd_id w b H0 H1 H2 F0 F1 Hb Hu) as Ec.
  cbn zeta in Ec. rewrite F2 in Ec.
  eexists. split; [exact Ec | exact Hb].
Qed.

(** X5.  A response object without an id, or whose id is not a string,
    answers no command: whatever the outstanding id, the pass that reads
    it (none of its three calls refused) returns nothing and has deleted
    it. *)
Theorem response_without_string_id_discarded cmd_id w b d :
  host (ticks w) = HostIdle ->
  host (S (ticks w)) = HostIdle ->
  host (S (S (ticks w))) = HostIdle ->
  fault (ticks w) = None ->
  fault (S (ticks w)) = None ->
  fault (S (S (ticks w))) = None ->
  files w !! RSP_FILE = Some b ->
  utf8_valid b = true ->
  json_loads (universal_newlines b) = Ret (PDict d) ->
  (forall s, dict_get "id" d <> Some (PStr s)) ->
  exists w',
    poll_cycle cmd_id w = (Ret None, w')
    /\ files w' !! RSP_FILE = None.
Proof.
  intros H0 H1 H2 F0 F1 F2 Hb Hu Hj Hid.
  pose proof (poll_cycle_idle cmd_id w b H0 H1 H2 F0 F1 Hb Hu) as Ec.
  cbn zeta in Ec. rewrite F2 in Ec. unfold after_parse in Ec.
  rewrite Hj in Ec. cbn [py_get] in Ec.
  assert (Hq : py_eq (match dict_get "id" d with Some v => v | None => PNone end)
                 (PStr cmd_id) = false).
  { destruct (dict_get "id" d) as [[| | |s| |]|] eqn:Eg; try reflexivity.
    destruct (Hid s eq_refl). }
  rewrite Hq in Ec. eexists. split; [exact Ec|]. simpl. apply lookup_delete_eq.
Qed.


End ChannelMore.

(** * More of the installer *)

(** ** Walks along a key path *)

Lemma dict_get_set_ne k k' v d :
  k <> k' -> dict_get k (dict_set k' v d) = dict_get k d.
Proof.
  intros Hne. induction d as [|[k0 x] d IH]; simpl.
  - destruct (String.eqb k k') eqn:Ek; [|reflexivity].
    apply String.eqb_eq in Ek. contradiction.
  - destruct (String.eqb k' k0) eqn:E0; simpl.
    + apply String.eqb_eq in E0. subst k0.
      destruct (String.eqb k k') eqn:Ek; [|reflexivity].
      apply String.eqb_eq in Ek. contradiction.
    + by rewrite IH.
Qed.

Lemma dict_set_keys k v d :
  map fst (dict_set k v d)
  = if dict_has k d then map fst d else (map fst d ++ [k])%list.
Proof.
  unfold dict_has. induction d as [|[k0 x] d IH]; simpl; [reflexivity|].
  destruct (String.eqb k k0) eqn:E0; simpl; [reflexivity|].
  rewrite IH. by destruct (dict_get k d).
Qed.

Lemma dict_get_del_ne k k' d :
  k <> k' -> dict_get k (dict_del k' d) = dict_get k d.
Proof.
  intros Hne. induction d as [|[k0 x] d IH]; simpl; [reflexivity|].
  destruct (String.eqb k' k0) eqn:E0; simpl.
  - apply String.eqb_eq in E0. subst k0.
    destruct (String.eqb k k') eqn:Ek; [|reflexivity].
    apply String.eqb_eq in Ek. contradiction.
  - by rewrite IH.
Qed.

Lemma dict_get_absent k d :
  existsb (String.eqb k) (map fst d) = false -> dict_get k d = None.
Proof.
  induction d as [|[k0 x] d IH]; simpl; [reflexivity|].
  intros [H0 Hd]%orb_false_elim. rewrite H0. by apply IH.
Qed.

Lemma dict_get_del_eq k d :
  keys_unique (map fst d) = true -> dict_get k (dict_del k d) = None.
Proof.
  induction d as [|[k0 x] d IH]; simpl; [reflexivity|].
  intros [Hn Hu]%andb_prop. destruct (String.eqb k k0) eqn:E0; simpl.
  - apply String.eqb_eq in E0. subst k0. apply dict_get_absent.
    by apply negb_true_iff.
  - rewrite E0. by apply IH.
Qed.

Lemma py_wf_child k d child :
  py_wf (PDict d) = true -> dict_get k d = Some child -> py_wf child = true.
Proof.
  simpl. intros [_ Hall]%andb_prop. induction d as [|[k0 x] d IH]; simpl;
    [discriminate|].
  apply andb_prop in Hall as [Hx Hd].
  destruct (String.eqb k k0); [by intros [= <-] | by apply IH].
Qed.

Lemma get_path_snoc c ks k :
  get_path c (ks ++ [k])
  = match get_path c ks with
    | Some (PDict d) => dict_get k d
    | _ => None
    end.
Proof.
  revert c. induction ks as [|k0 ks IH]; intros c; simpl.
  - destruct c; try reflexivity. by destruct (dict_get k entries).
  - destruct c; try reflexivity. destruct (dict_get k0 entries); [apply IH | reflexivity].
Qed.

(** The walk of the merge raises nothing but [TypeError]. *)
Lemma merge_into_raises c ks fk v e :
  merge_into c ks fk v = Raise e -> e = TypeError.
Proof.
  revert c. induction ks as [|key rest IH]; intros c H.
  - destruct c as [| | |s|l|d]; cbn in H; try (by inversion H).
    + destruct (str_contains fk s); cbn in H; by inversion H.
    + destruct (existsb _ l); cbn in H; by inversion H.
    + unfold dict_has in H. destruct (dict_get fk d) as [x|]; cbn in H.
      * destruct (py_eq x v); discriminate H.
      * discriminate H.
  - destruct c as [| | |s|l|d]; cbn in H; try (by inversion H).
    + destruct (str_contains key s); cbn in H; by inversion H.
    + destruct (existsb _ l); cbn in H; by inversion H.
    + unfold dict_has in H.
      destruct (dict_get key d) as [child|] eqn:Eg; cbn in H.
      * rewrite Eg in H. cbn in H.
        destruct (merge_into child rest fk v) as [[c1|]|e1] eqn:Em; cbn in H;
          try discriminate H. inversion H; subst. eapply IH, Em.
      * rewrite dict_get_set_eq in H. cbn in H.
        destruct (merge_into (PDict []) rest fk v) as [[c1|]|e1] eqn:Em;
          cbn in H; try discriminate H. inversion H; subst. eapply IH, Em.
Qed.

Lemma merge_into_non_dict c ks fk v :
  (forall d, c <> PDict d) -> merge_into c ks fk v = Raise TypeError.
Proof.
  intros Hc. destruct (merge_into c ks fk v) as [r|e] eqn:Em.
  - destruct (merge_into_dict _ _ _ _ _ Em) as [d ->]. destruct (Hc d eq_refl).
  - by rewrite (merge_into_raises _ _ _ _ _ Em).
Qed.

(** After a merge that writes, the key path leads to the value. *)
Lemma merge_into_lookup c ks fk v c' :
  merge_into c ks fk v = Ret (Some c') -> get_path c' (ks ++ [fk]) = Some v.
Proof.
  revert c c'. induction ks as [|key rest IH]; intros c c' H;
    destruct (merge_into_dict _ _ _ _ _ H) as [d ->].
  - cbn in H. unfold dict_has in H. destruct (dict_get fk d) as [x|]; cbn in H.
    + destruct (py_eq x v); [discriminate|]. inversion H; subst.
      simpl. by rewrite dict_get_set_eq.
    + inversion H; subst. simpl. by rewrite dict_get_set_eq.
  - cbn in H. unfold dict_has in H.
    destruct (dict_get key d) as [child|] eqn:Eg; cbn in H.
    + rewrite Eg in H. cbn in H.
      destruct (merge_into child rest fk v) as [[c1|]|e1] eqn:Em; cbn in H;
        try discriminate H. inversion H; subst.
      cbn [app get_path]. rewrite dict_get_set_eq. eapply IH, Em.
    + rewrite dict_get_set_eq in H. cbn in H.
      destruct (merge_into (PDict []) rest fk v) as [[c1|]|e1] eqn:Em;
        cbn in H; try discriminate H. inversion H; subst.
      cbn [app get_path]. rewrite dict_get_set_eq. eapply IH, Em.
Qed.

(** A merge that writes touches one top-level key, the first of the path;
    the keys keep their order, a new one goes last. *)
Lemma merge_into_frame c ks fk v c' :
  merge_into c ks fk v = Ret (Some c') ->
  exists d d',
    c = PDict d /\ c' = PDict d'
    /\ (forall k, k <> hd fk ks -> dict_get k d' = dict_get k d)
    /\ map fst d'
       = if dict_has (hd fk ks) d then map fst d
         else (map fst d ++ [hd fk ks])%list.
Proof.
  intros H. destruct (merge_into_dict _ _ _ _ _ H) as [d ->].
  destruct ks as [|key rest]; cbn in H; cbn [hd].
  - assert (Hc : c' = PDict (dict_set fk v d)).
    { unfold dict_has in H. destruct (dict_get fk d) as [x|]; cbn in H.
      - destruct (py_eq x v); [discriminate | by inversion H].
      - by inversion H. }
    subst c'. exists d, (dict_set fk v d). repeat split.
    + intros k Hk. by apply dict_get_set_ne.
    + apply dict_set_keys.
  - unfold dict_has in *.
    destruct (dict_get key d) as [child|] eqn:Eg; cbn in H.
    + rewrite Eg in H. cbn in H.
      destruct (merge_into child rest fk v) as [[c1|]|e1]; cbn in H;
        try discriminate H. inversion H; subst.
      exists d, (dict_set key c1 d). repeat split.
      * intros k Hk. by apply dict_get_set_ne.
      * rewrite dict_set_keys. unfold dict_has. by rewrite Eg.
    + rewrite dict_get_set_eq in H. cbn in H.
      destruct (merge_into (PDict []) rest fk v) as [[c1|]|e1]; cbn in H;
        try discriminate H. inversion H; subst.
      rewrite dict_set_set. exists d, (dict_set key c1 d). repeat split.
      * intros k Hk. by apply dict_get_set_ne.
      * rewrite dict_set_keys. unfold dict_has. by rewrite Eg.
Qed.

(** A merge that finds nothing to do has found an equal value. *)
Lemma merge_into_none c ks fk v :
  merge_into c ks fk v = Ret None ->
  exists x, get_path c (ks ++ [fk]) = Some x /\ py_eq x v = true.
Proof.
  revert c. induction ks as [|key rest IH]; intros c H;
    destruct (merge_into_dict _ _ _ _ _ H) as [d ->].
  - cbn in H. unfold dict_has in H. destruct (dict_get fk d) as [x|] eqn:Eg;
      cbn in H; [|discriminate].
    destruct (py_eq x v) eqn:Eq; [|discriminate].
    exists x. simpl. by rewrite Eg.
  - cbn in H. unfold dict_has in H.
    destruct (dict_get key d) as [child|] eqn:Eg; cbn in H.
    + rewrite Eg in H. cbn in H.
      destruct (merge_into child rest fk v) as [[c1|]|e1] eqn:Em; cbn in H;
        try discriminate H.
      destruct (IH _ Em) as (x & Hx & Hq). exists x. cbn [app get_path].
      by rewrite Eg.
    + rewrite dict_get_set_eq in H. cbn in H.
      destruct (merge_into (PDict []) rest fk v) as [[c1|]|e1] eqn:Em;
        cbn in H; try discriminate H.
      destruct (IH _ Em) as (x & Hx & _).
      destruct rest; simpl in Hx; discriminate Hx.
Qed.

Lemma remove_from_dict_or_none c ks fk c' :
  remove_from c ks fk = Ret (Some c') -> exists d, c = PDict d.
Proof.
  destruct c as [| | |s|l|d]; [| | | | |eauto]; destruct ks; cbn;
    try discriminate.
  - destruct (str_contains fk s); cbn; discriminate.
  - destruct (str_contains s0 s); cbn; discriminate.
  - destruct (existsb _ l); cbn; discriminate.
  - destruct (existsb _ l); cbn; discriminate.
Qed.

(** A removal that finds nothing to remove: the key path led nowhere. *)
Lemma remove_from_none c ks fk :
  remove_from c ks fk = Ret None -> get_path c (ks ++ [fk]) = None.
Proof.
  revert c. induction ks as [|key rest IH]; intros c H.
  - destruct c as [| | |s|l|d]; try reflexivity.
    cbn in H. unfold dict_has in H. simpl.
    destruct (dict_get fk d); [discriminate | reflexivity].
  - destruct c as [| | |s|l|d]; try reflexivity.
    cbn in H. unfold dict_has in H. cbn [app get_path].
    destruct (dict_get key d) as [child|] eqn:Eg; [|reflexivity].
    cbn in H. try try rewrite Eg in H. cbn in H.
    destruct (remove_from child rest fk) as [[c1|]|e1] eqn:Em; cbn in H;
      try discriminate H. by apply IH.
Qed.

(** A removal that writes: the key was there, it is gone, and nothing
    else at the top level has changed. *)
Lemma remove_from_some c ks fk c' :
  remove_from c ks fk = Ret (Some c') ->
  is_Some (get_path c (ks ++ [fk]))
  /\ (py_wf c = true -> get_path c' (ks ++ [fk]) = None)
  /\ exists d d',
       c = PDict d /\ c' = PDict d'
       /\ (forall k, k <> hd fk ks -> dict_get k d' = dict_get k d).
Proof.
  revert c c'. induction ks as [|key rest IH]; intros c c' H;
    destruct (remove_from_dict_or_none _ _ _ _ H) as [d ->].
  - cbn in H. unfold dict_has in H.
    destruct (dict_get fk d) as [x|] eqn:Eg; cbn in H; [|discriminate].
    inversion H; subst. split; [|split].
    + simpl. rewrite Eg. eauto.
    + simpl. intros [Hu _]%andb_prop. by rewrite dict_get_del_eq.
    + exists d, (dict_del fk d). repeat split. intros k Hk.
      by apply dict_get_del_ne.
  - cbn in H. unfold dict_has in H.
    destruct (dict_get key d) as [child|] eqn:Eg; cbn in H; [|discriminate].
    try rewrite Eg in H. cbn in H.
    destruct (remove_from child rest fk) as [[c1|]|e1] eqn:Em; cbn in H;
      try discriminate H. inversion H; subst.
    destruct (IH _ _ Em) as (Hs & Hn & _). split; [|split].
    + cbn [app get_path]. by rewrite Eg.
    + intros Hwf. cbn [app get_path]. rewrite dict_get_set_eq.
      apply Hn. eapply py_wf_child; eauto.
    + exists d, (dict_set key c1 d). repeat split. intros k Hk.
      by apply dict_get_set_ne.
Qed.

Lemma key_path_split key_path final_key :
  py_last key_path = Ret final_key ->
  key_path = (removelast key_path ++ [final_key])%list
  /\ hd final_key (removelast key_path) = hd final_key key_path.
Proof.
  destruct key_path as [|k ks]; [discriminate|]. intros H.
  assert (Hf : final_key = List.last (k :: ks) "") by (unfold py_last in H; congruence).
  rewrite Hf. split.
  - apply app_removelast_last. discriminate.
  - destruct ks; reflexivity.
Qed.

Lemma text_encode_nonempty `{E : Env} s : text_encode (s +:+ nl) <> "".
Proof.
  unfold text_encode.
  assert (Hne : s +:+ nl <> "") by (destruct s; discriminate).
  destruct win32; [|exact Hne].
  destruct (s +:+ nl) as [|a t]; [done|]. simpl. by destruct (N.eqb _ _).
Qed.

Section InstallerMore.
Context {E : Env} {J : JsonLib}.

(** X6.  On a calm system a merge that raises has not touched the file
    system.  An empty key path raises [IndexError]; a configuration that
    is not an object raises [TypeError], and the walk along the key path
    raises nothing else. *)
Theorem merge_json_config_raises path key_path value w :
  calm ->
  (forall e w', merge_json_config path key_path value w = (Raise e, w') ->
                files w' = files w)
  /\ (forall c, config_of (files w !! path) = Ret (Some c) ->
        (key_path = [] ->
         exists w', merge_json_config path key_path value w = (Raise IndexError, w'))
        /\ (key_path <> [] -> (forall d, c <> PDict d) ->
            exists w', merge_json_config path key_path value w = (Raise TypeError, w'))
        /\ (forall e w', merge_json_config path key_path value w = (Raise e, w') ->
            key_path <> [] -> e = TypeError)).
Proof.
  intros Hc.
  destruct (merge_json_config_calm path key_path value w Hc) as (w1 & Hm & F1).
  split.
  - intros e w' H. rewrite Hm in H.
    destruct (merge_effect _ _ _) as [[c'|]|e']; inversion H; subst; exact F1.
  - intros c Hcfg. unfold merge_effect in Hm. rewrite Hcfg in Hm.
    cbn [res_bind] in Hm. split; [|split].
    + intros ->. exists w1. exact Hm.
    + intros Hne Hnd. destruct key_path as [|k ks]; [done|].
      cbn [py_last res_bind] in Hm.
      rewrite (merge_into_non_dict c _ _ value Hnd) in Hm. eauto.
    + intros e w' H Hne. rewrite Hm in H. destruct key_path as [|k ks]; [done|].
      cbn [py_last res_bind] in H.
      destruct (merge_into c _ _ value) as [[c'|]|e'] eqn:Em;
        inversion H; subst. eapply merge_into_raises, Em.
Qed.

(** X7.  The merge writes in place: once the file is opened for writing
    it is empty, and when the first write is then refused the call raises
    and the file stays empty; the configuration it held is gone. *)
Theorem merge_json_config_write_refused path key_path value w c' msg :
  (forall k, host k = HostIdle) ->
  merge_effect (files w !! path) key_path value = Ret (Some c') ->
  let n := (ticks w + match files w !! path with Some _ => 2 | None => 1 end)%nat in
  (forall k, (k <= S n)%nat -> fault k = None) ->
  fault (S (S n)) = Some msg ->
  exists w',
    merge_json_config path key_path value w = (Raise (OSError msg), w')
    /\ files w' !! path = Some "".
Proof.
  intros Hh He n Hf Hw.
  assert (Hent : forall w0, enter w0 = files w0)
    by (intros w0; unfold enter; by rewrite Hh).
  unfold merge_effect in He.
  unfold merge_json_config. unfold bind at 1.
  assert (Hl : exists w1, load_config path w = (config_of (files w !! path), w1)
                          /\ files w1 = files w /\ ticks w1 = n).
  { unfold load_config, bind, try_except, path_exists, read_text, syscall,
      lift, ret, config_of. subst n.
    rewrite (Hf (ticks w)) by (destruct (files w !! path); lia).
    rewrite Hent.
    destruct (files w !! path) as [b|] eqn:Eb.
    - cbn [ticks leave]. rewrite (Hf (S (ticks w))) by lia.
      rewrite Hent. cbn [files leave]. rewrite Eb.
      assert (Ht : (ticks w + 2)%nat = S (S (ticks w))) by lia. rewrite Ht.
      destruct (utf8_valid b); [|eauto]. cbn zeta.
      destruct (py_truthy _); [|eauto].
      destruct (json_loads _) as [c|e]; [eauto|].
      destruct (is_JSONDecodeError_or_OSError e); eauto.
    - assert (Ht : (ticks w + 1)%nat = S (ticks w)) by lia. rewrite Ht. eauto. }
  destruct Hl as (w1 & -> & F1 & T1).
  destruct (config_of (files w !! path)) as [[config|]|e]; cbn [res_bind] in He;
    try discriminate He.
  unfold bind at 1, lift at 1.
  destruct (py_last key_path) as [fk|e]; cbn [res_bind] in He; [|discriminate].
  unfold bind at 1, lift at 1. rewrite He.
  unfold bind at 1, mkdir_parent, os_mkdir, syscall.
  rewrite T1, (Hf n) by lia. rewrite Hent.
  unfold bind at 1, write_text, bind at 1, open_w, syscall.
  cbn [ticks leave]. rewrite T1, (Hf (S n)) by lia. rewrite Hent.
  cbn [files leave]. unfold write_all.
  pose proof (text_encode_nonempty (json_dumps_indent2 c')) as Hne.
  destruct (text_encode (json_dumps_indent2 c' +:+ nl)) as [|a t] eqn:Et; [done|].
  cbn [String.length chunks write_chunks]. unfold bind at 1, write_bytes, syscall.
  cbn [ticks leave]. rewrite T1, Hw. eexists. split; [reflexivity|].
  cbn [files leave]. rewrite Hent. cbn [files leave]. apply lookup_insert_eq.
Qed.

(** X8.  On a calm system a merge that returns true has written the
    serialization of a configuration in which the key path leads to the
    value; every top-level key but the first of the path has the value
    it had, and the keys are in the order they were, a new one last. *)
Theorem merge_json_config_written path key_path value w w1 :
  calm ->
  merge_json_config path key_path value w = (Ret true, w1) ->
  exists d0 d1,
    config_of (files w !! path) = Ret (Some (PDict d0))
    /\ files w1 = <[path := config_bytes (PDict d1)]> (files w)
    /\ get_path (PDict d1) key_path = Some value
    /\ (forall first rest, key_path = first :: rest ->
        (forall k, k <> first -> dict_get k d1 = dict_get k d0)
        /\ map fst d1
           = if dict_has first d0 then map fst d0
             else (map fst d0 ++ [first])%list).
Proof.
  intros Hc H.
  destruct (merge_json_config_calm path key_path value w Hc) as (w1' & Hm & F1).
  rewrite H in Hm. inversion Hm as [[Hb Hw]]. subst w1'. clear Hm.
  unfold merge_effect in Hb, F1.
  destruct (config_of (files w !! path)) as [[c0|]|e]; cbn [res_bind] in Hb, F1;
    try discriminate Hb.
  destruct (py_last key_path) as [fk|e] eqn:Ek; cbn [res_bind] in Hb, F1;
    [|discriminate].
  destruct (merge_into c0 _ fk value) as [[c1|]|e] eqn:Em; try discriminate Hb.
  destruct (key_path_split _ _ Ek) as [Hsplit Hhd].
  destruct (merge_into_frame _ _ _ _ _ Em) as (d0 & d1 & -> & -> & Hfr & Hord).
  exists d0, d1. split; [reflexivity|]. split; [exact F1|]. split.
  - rewrite Hsplit. eapply merge_into_lookup, Em.
  - intros first rest Hkp. rewrite Hhd, Hkp in *. simpl in Hfr, Hord. auto.
Qed.

(** X9.  On a calm system a merge that returns false has changed
    nothing, and either the file could not be parsed (or read), or the
    key path already led to a value equal to the one given. *)
Theorem merge_json_config_false path key_path value w w1 :
  calm ->
  merge_json_config path key_path value w = (Ret false, w1) ->
  files w1 = files w
  /\ (config_of (files w !! path) = Ret None
      \/ exists c0 x,
           config_of (files w !! path) = Ret (Some c0)
           /\ get_path c0 key_path = Some x
           /\ py_eq x value = true).
Proof.
  intros Hc H.
  destruct (merge_json_config_calm path key_path value w Hc) as (w1' & Hm & F1).
  rewrite H in Hm. inversion Hm as [[Hb Hw]]. subst w1'. clear Hm.
  unfold merge_effect in Hb, F1.
  destruct (config_of (files w !! path)) as [[c0|]|e]; cbn [res_bind] in Hb, F1;
    try discriminate Hb; [|by split; [|left]].
  destruct (py_last key_path) as [fk|e] eqn:Ek; cbn [res_bind] in Hb, F1;
    [|discriminate].
  destruct (merge_into c0 _ fk value) as [[c1|]|e] eqn:Em; try discriminate Hb.
  split; [exact F1|]. right.
  destruct (merge_into_none _ _ _ _ Em) as (x & Hx & Hq).
  destruct (key_path_split _ _ Ek) as [Hsplit _]. rewrite <- Hsplit in Hx.
  exists c0, x. auto.
Qed.

(** X10.  On a calm system a removal that returns true has found the key
    path in the file and has written the serialization of a
    configuration in which, keys being unique, the path leads nowhere;
    every top-level key but the first of the path has the value it had. *)
Theorem remove_json_config_key_true path key_path w w1 :
  calm ->
  remove_json_config_key path key_path w = (Ret true, w1) ->
  exists b d0 d1,
    files w !! path = Some b
    /\ json_loads (universal_newlines b) = Ret (PDict d0)
    /\ is_Some (get_path (PDict d0) key_path)
    /\ files w1 = <[path := config_bytes (PDict d1)]> (files w)
    /\ (py_wf (PDict d0) = true -> get_path (PDict d1) key_path = None)
    /\ (forall first rest, key_path = first :: rest ->
        forall k, k <> first -> dict_get k d1 = dict_get k d0).
Proof.
  intros Hc H.
  destruct (files w !! path) as [b|] eqn:Eb.
  2:{ unfold remove_json_config_key, bind, path_exists, syscall in H.
      destruct (Hc (ticks w)) as [Hf _]. rewrite Hf in H.
      rewrite (enter_calm w Hc), Eb in H. discriminate H. }
  destruct (remove_json_config_key_calm path key_path w b Hc Eb) as (w1' & Hm & F1).
  rewrite H in Hm. inversion Hm as [[Hb Hw]]. subst w1'. clear Hm.
  unfold remove_effect in Hb, F1.
  destruct (utf8_valid b); [|discriminate].
  destruct (json_loads (universal_newlines b)) as [c0|e] eqn:Ej.
  2:{ destruct (is_JSONDecodeError_or_OSError e); discriminate. }
  destruct (py_last key_path) as [fk|e] eqn:Ek; cbn [res_bind] in Hb, F1;
    [|discriminate].
  destruct (remove_from c0 _ fk) as [[c1|]|e] eqn:Em; try discriminate Hb.
  destruct (key_path_split _ _ Ek) as [Hsplit Hhd].
  destruct (remove_from_some _ _ _ _ Em) as (Hs & Hn & d0 & d1 & -> & -> & Hfr).
  rewrite <- Hsplit in Hs, Hn.
  exists b, d0, d1.
  split; [reflexivity|]. split; [exact Ej|]. split; [exact Hs|].
  split; [exact F1|]. split; [exact Hn|].
  intros first rest Hkp k Hk. apply Hfr. rewrite Hhd, Hkp. exact Hk.
Qed.

(** X11.  On a calm system a removal that returns false has changed
    nothing: the file is missing, or it cannot be parsed (a blank file
    included, unlike for the merge), or the key path leads nowhere. *)
Theorem remove_json_config_key_false path key_path w w1 :
  calm ->
  remove_json_config_key path key_path w = (Ret false, w1) ->
  files w1 = files w
  /\ (files w !! path = None
      \/ (exists b e, files w !! path = Some b
                      /\ json_loads (universal_newlines b) = Raise e
                      /\ is_JSONDecodeError_or_OSError e = true)
      \/ (exists b c0, files w !! path = Some b
                       /\ json_loads (universal_newlines b) = Ret c0
                       /\ get_path c0 key_path = None)).
Proof.
  intros Hc H.
  destruct (files w !! path) as [b|] eqn:Eb.
  2:{ unfold remove_json_config_key, bind, path_exists, syscall, ret in H.
      destruct (Hc (ticks w)) as [Hf _]. rewrite Hf in H.
      rewrite (enter_calm w Hc), Eb in H. cbn [negb] in H.
      inversion H; subst. split; [reflexivity | by left]. }
  destruct (remove_json_config_key_calm path key_path w b Hc Eb) as (w1' & Hm & F1).
  rewrite H in Hm. inversion Hm as [[Hb Hw]]. subst w1'. clear Hm.
  unfold remove_effect in Hb, F1.
  destruct (utf8_valid b); [|discriminate].
  destruct (json_loads (universal_newlines b)) as [c0|e] eqn:Ej.
  2:{ destruct (is_JSONDecodeError_or_OSError e) eqn:Eh; [|discriminate].
      split; [exact F1|]. right. left. eauto. }
  destruct (py_last key_path) as [fk|e] eqn:Ek; cbn [res_bind] in Hb, F1;
    [|discriminate].
  destruct (remove_from c0 _ fk) as [[c1|]|e] eqn:Em; try discriminate Hb.
  split; [exact F1|]. right. right.
  destruct (key_path_split _ _ Ek) as [Hsplit _].
  exists b, c0. split; [reflexivity|]. split; [exact Ej|].
  rewrite Hsplit. eapply remove_from_none, Em.
Qed.

End InstallerMore.

(** * The quick ping *)

Section QuickPingFacts.
Context {E : Env} {J : JsonLib}.
Variable fifty_ms : Z.

Lemma quick_ping_loop_S fuel cmd_id start w :
  quick_ping_loop fifty_ms (S fuel) cmd_id start w
  = match time_monotonic w with
    | (Raise e, w1) => Some (Raise e, w1)
    | (Ret t, w1) =>
        if t - start <? 40 * fifty_ms then
          match poll_cycle cmd_id w1 with
          | (Raise e, w2) => Some (Raise e, w2)
          | (Ret (Some response), w2) => Some (Ret response, w2)
          | (Ret None, w2) =>
              match time_sleep (Finite fifty_ms) w2 with
              | (Raise e, w3) => Some (Raise e, w3)
              | (Ret _, w3) => quick_ping_loop fifty_ms fuel cmd_id start w3
              end
          end
        else Some (Ret no_success, w1)
    end.
Proof. reflexivity. Qed.

Lemma quick_ping_loop_ret fuel cmd_id start w d w' :
  quick_ping_loop fifty_ms fuel cmd_id start w = Some (Ret d, w') ->
  d = no_success
  \/ exists rid, py_get d "id" = Ret rid /\ py_eq rid (PStr cmd_id) = true.
Proof.
  revert w. induction fuel as [|n IH]; intros w H; [discriminate|].
  rewrite quick_ping_loop_S in H.
  destruct (time_monotonic w) as [[t|e] w1]; [|discriminate].
  destruct (_ <? _); [|left; congruence].
  destruct (poll_cycle cmd_id w1) as [[[v|]|e] w2] eqn:Ec; [| |discriminate].
  - right. inversion H; subst. eapply poll_cycle_match, Ec.
  - destruct (time_sleep _ w2) as [[u|e] w3]; [eauto|discriminate].
Qed.

Lemma quick_ping_loop_terminates cmd_id start :
  0 < fifty_ms ->
  (forall k, 0 <= elapsed k) ->
  forall fuel w,
    start + 40 * fifty_ms - now w <= Z.of_nat fuel * fifty_ms ->
    exists r w', quick_ping_loop fifty_ms (S fuel) cmd_id start w = Some (r, w').
Proof.
  intros HP Hel. induction fuel as [|n IH]; intros w Hb;
    rewrite quick_ping_loop_S; unfold time_monotonic;
    pose proof (Hel (ticks w)) as H0;
    (destruct (_ <? _) eqn:Hlt; [|eauto]);
    apply Z.ltb_lt in Hlt; simpl in Hlt.
  - lia.
  - destruct (poll_cycle cmd_id (leave w (enter w) 0)) as [[[v|]|e] w2] eqn:Ec;
      [eauto| |eauto].
    destruct (poll_cycle_time _ _ _ _ Ec) as (_ & Ht & _).
    specialize (Ht Hel). simpl in Ht.
    unfold time_sleep. destruct (fifty_ms <? 0) eqn:Hneg; [lia|].
    apply IH. simpl. pose proof (Hel (ticks w2)). lia.
Qed.

(** X12.  What the quick ping returns is the bare [{"success": False}],
    the same for a failed write and for a timeout and with neither id nor
    error text, or a response that carries the id drawn for the ping. *)
Theorem quick_ping_result fuel w d w' :
  _quick_ping fifty_ms fuel w = Some (Ret d, w') ->
  d = PDict [("success", PBool false)]
  \/ exists cmd_id w1 rid,
       prepare w = (Ret cmd_id, w1)
       /\ py_get d "id" = Ret rid
       /\ py_eq rid (PStr cmd_id) = true.
Proof.
  unfold _quick_ping. intros H.
  destruct (prepare w) as [[cmd_id|e] w1] eqn:E1; [|discriminate].
  destruct (publish _ w1) as [[[]|e] w2].
  - destruct (time_monotonic w2) as [[start|e] w3]; [|discriminate].
    destruct (quick_ping_loop_ret _ _ _ _ _ _ H) as [->|(rid & Hg & Hq)];
      [by left|]. right. exists cmd_id, w1, rid. auto.
  - destruct (is_OSError e); [|discriminate]. inversion H. by left.
Qed.

(** X13.  The quick ping ends within forty-one passes of its loop,
    whatever [TIMEOUT] and [POLL_INTERVAL] are set to: its two seconds
    and its twentieth of a second are its own. *)
Theorem quick_ping_terminates fuel w :
  0 < fifty_ms ->
  (forall k, 0 <= elapsed k) ->
  (41 <= fuel)%nat ->
  exists r w', _quick_ping fifty_ms fuel w = Some (r, w').
Proof.
  intros HP Hel Hfuel. unfold _quick_ping.
  destruct (prepare w) as [[cmd_id|e] w1]; [|eauto].
  destruct (publish _ w1) as [[[]|e] w2].
  - unfold time_monotonic. destruct fuel as [|n]; [lia|].
    apply quick_ping_loop_terminates; auto. simpl.
    assert (40 <= Z.of_nat n) by lia. nia.
  - destruct (is_OSError e); eauto.
Qed.

Lemma quick_ping_loop_same_at p fuel cmd_id start w r w' :
  p <> RSP_FILE ->
  quick_ping_loop fifty_ms fuel cmd_id start w = Some (r, w') -> same_at p w w'.
Proof.
  intros Hp. revert w. induction fuel as [|n IH]; intros w H; [discriminate|].
  rewrite quick_ping_loop_S in H.
  destruct (time_monotonic w) as [[t|e] w1] eqn:E1;
    pose proof (frames_time_monotonic p Hp _ _ _ E1) as S1.
  2:{ inversion H; subst. exact S1. }
  destruct (t - start <? 40 * fifty_ms).
  2:{ inversion H; subst. exact S1. }
  destruct (poll_cycle cmd_id w1) as [[[v|]|e] w2] eqn:E2;
    pose proof (frames_poll_cycle p cmd_id Hp _ _ _ E2) as S2.
  - inversion H; subst. eapply same_at_trans; eauto.
  - destruct (time_sleep (Finite fifty_ms) w2) as [[u|e] w3] eqn:E3;
      pose proof (frames_time_sleep p _ Hp _ _ _ E3) as S3.
    + eapply same_at_trans; [exact S1|]. eapply same_at_trans; [exact S2|].
      eapply same_at_trans; [exact S3|]. by apply IH.
    + inversion H; subst.
      eapply same_at_trans; [exact S1|]. eapply same_at_trans; eauto.
  - inversion H; subst. eapply same_at_trans; eauto.
Qed.

Lemma quick_ping_loop_gives_up fuel cmd_id start w w' :
  quick_ping_loop fifty_ms fuel cmd_id start w = Some (Ret no_success, w') ->
  40 * fifty_ms <= now w' - start.
Proof.
  revert w. induction fuel as [|n IH]; intros w H; [discriminate|].
  rewrite quick_ping_loop_S in H. unfold time_monotonic in H.
  destruct (_ <? _) eqn:Hlt.
  - destruct (poll_cycle cmd_id _) as [[[v|]|e] w2] eqn:Ec; [| |discriminate].
    + inversion H; subst.
      destruct (poll_cycle_match _ _ _ _ Ec) as (rid & Hg & Hq).
      inversion Hg; subst rid. discriminate Hq.
    + destruct (time_sleep _ w2) as [[u|e] w3]; [eauto|discriminate].
  - apply Z.ltb_ge in Hlt. inversion H; subst. lia.
Qed.

(** X14.  The quick ping publishes the command that [send_command]
    publishes for "ping" without parameters, and leaves it in place; when
    the publishing fails both stop in the same state, the one with its
    failure dictionary, the other with the bare [{"success": False}]. *)
Theorem quick_ping_publishes_ping fuel w cmd_id w1 :
  prepare w = (Ret cmd_id, w1) ->
  (forall w2 r w',
      publish (envelope cmd_id "ping" PNone) w1 = (Ret tt, w2) ->
      _quick_ping fifty_ms fuel w = Some (r, w') ->
      files w' !! CMD_FILE
      = Some (text_encode (json_dumps (envelope cmd_id "ping" PNone))))
  /\ (forall msg w2,
        publish (envelope cmd_id "ping" PNone) w1 = (Raise (OSError msg), w2) ->
        _quick_ping fifty_ms fuel w
        = Some (Ret (PDict [("success", PBool false)]), w2)
        /\ send_command fuel "ping" PNone w
           = Some (Ret (write_failure cmd_id (OSError msg)), w2)).
Proof.
  intros E1. split.
  - intros w2 r w' E2 H. unfold _quick_ping in H. rewrite E1 in H.
    change (PDict [("id", PStr cmd_id); ("action", PStr "ping");
                   ("params", PDict [])])
      with (envelope cmd_id "ping" PNone) in H.
    rewrite E2 in H.
    destruct (publish_spec _ _ _ _ E2) as [_ [(_ & Hnew & _)|(msg & [=] & _)]].
    destruct (time_monotonic w2) as [[start|e] w3] eqn:E3;
      destruct (frames_time_monotonic CMD_FILE cmd_not_rsp _ _ _ E3) as [F3 _].
    + destruct (quick_ping_loop_same_at CMD_FILE _ _ _ _ _ _ cmd_not_rsp H)
        as [F4 _].
      congruence.
    + inversion H; subst. congruence.
  - intros msg w2 E2. split.
    + unfold _quick_ping. rewrite E1.
      change (PDict [("id", PStr cmd_id); ("action", PStr "ping");
                     ("params", PDict [])])
        with (envelope cmd_id "ping" PNone).
      by rewrite E2.
    + by rewrite send_command_eq, E1, E2.
Qed.

(** X15.  After a successful publishing the bare [{"success": False}]
    means that the two seconds have passed: it is never a response, and
    the clock read last is at least forty times 0.05 s past the start. *)
Theorem quick_ping_gives_up_late fuel w cmd_id w1 w2 w' :
  prepare w = (Ret cmd_id, w1) ->
  publish (envelope cmd_id "ping" PNone) w1 = (Ret tt, w2) ->
  _quick_ping fifty_ms fuel w = Some (Ret (PDict [("success", PBool false)]), w') ->
  exists start w3,
    time_monotonic w2 = (Ret start, w3)
    /\ 40 * fifty_ms <= now w' - start.
Proof.
  intros E1 E2 H. unfold _quick_ping in H. rewrite E1 in H.
  change (PDict [("id", PStr cmd_id); ("action", PStr "ping");
                 ("params", PDict [])])
    with (envelope cmd_id "ping" PNone) in H.
  rewrite E2 in H.
  destruct (time_monotonic w2) as [[start|e] w3] eqn:E3; [|discriminate].
  exists start, w3. split; [reflexivity|].
  eapply quick_ping_loop_gives_up, H.
Qed.

End QuickPingFacts.

(** * The tool dispatch *)

Section ToolDispatchFacts.
Context {E : Env} {J : JsonLib} {T : PyText}.

(** X16.  [make_result] cannot fail on what [send_command] returns: a
    tool call that ends has raised exactly what [send_command] raised,
    or [send_command] has returned and the call yields one item of type
    "text". *)
Theorem call_tool_one_text fuel name arguments w r w' :
  call_tool fuel name arguments w = Some (r, w') ->
  (exists d text,
      send_command fuel name arguments w = Some (Ret d, w')
      /\ r = Ret [ {| content_type := "text"; content_text := text |} ])
  \/ (exists e,
        send_command fuel name arguments w = Some (Raise e, w')
        /\ r = Raise e).
Proof.
  unfold call_tool. intros H.
  destruct (send_command fuel name arguments w) as [[[d|e] w1]|] eqn:Es;
    [| |discriminate].
  - left. destruct (send_command_dict _ _ _ _ _ _ Es) as [entries ->].
    inversion H; subst. exists (PDict entries).
    unfold make_result. cbn [py_get res_bind].
    destruct (py_truthy _); cbn [py_get_default res_bind]; eauto.
  - right. inversion H; subst. eauto.
Qed.

(** X17.  How an outcome reads.  A dictionary whose success is not true
    and whose error is a string reads "Error: " and that string; so do
    the two failures [send_command] makes up, the timeout and the failed
    write.  Without an error it reads "Error: Unknown error".  One whose
    success is true reads as its result, serialized with an indent of
    two, and as an empty object when it has none. *)
Theorem call_tool_text fuel name arguments w d w' :
  send_command fuel name arguments w = Some (Ret (PDict d), w') ->
  let says text :=
    call_tool fuel name arguments w
    = Some (Ret [ {| content_type := "text"; content_text := text |} ], w') in
  let success := match dict_get "success" d with Some v => v | None => PNone end in
  (py_truthy success = false ->
   (forall s, dict_get "error" d = Some (PStr s) -> says ("Error: " +:+ s))
   /\ (dict_get "error" d = None -> says "Error: Unknown error"))
  /\ (py_truthy success = true ->
      (forall result, dict_get "result" d = Some result ->
                      says (json_dumps_indent2 result))
      /\ (dict_get "result" d = None -> says (json_dumps_indent2 (PDict []))))
  /\ (forall cmd_id, PDict d = timeout_failure cmd_id ->
        says "Error: Timeout — REAPER did not respond. Make sure reaper_listener.lua is running inside REAPER. Run 'python mcp_server.py check' for diagnostics.")
  /\ (forall cmd_id e, PDict d = write_failure cmd_id e ->
        says ("Error: Failed to write command file: " +:+ exn_str e)).
Proof.
  intros H says success. subst says success. unfold call_tool. rewrite H.
  unfold make_result. cbn [py_get py_get_default res_bind].
  split; [|split; [|split]].
  - intros ->. cbn [res_bind]. split.
    + intros s ->. by rewrite py_str_of_str.
    + intros ->. by rewrite py_str_of_str.
  - intros ->. cbn [res_bind]. split.
    + by intros result ->.
    + by intros ->.
  - intros cmd_id [= ->]. cbn. by rewrite py_str_of_str.
  - intros cmd_id e [= ->]. cbn. by rewrite py_str_of_str.
Qed.

End ToolDispatchFacts.

(** * The resource path *)

Section ResourcePathFacts.
Context {P : Platform}.


(** X19.  The path returned is one of the candidates.  An override that
    exists is the answer; a path that does not exist is returned only
    when no candidate exists, and is then the override if there is one. *)
Theorem get_reaper_resource_path_choice p :
  get_reaper_resource_path = Some p ->
  In p resource_candidates
  /\ (forall o, environ_truthy "REAPER_RESOURCE_PATH" = Some o ->
                path_exists_now (Path o) = true -> p = Path o)
  /\ (path_exists_now p = false ->
      (forall q, In q resource_candidates -> path_exists_now q = false)
      /\ (forall o, environ_truthy "REAPER_RESOURCE_PATH" = Some o -> p = Path o)).
Proof.
  unfold get_reaper_resource_path. intros H.
  destruct (List.find path_exists_now resource_candidates) as [q|] eqn:Ef.
  - inversion H; subst q. apply find_some in Ef as Hin. destruct Hin as [Hin Hex].
    split; [exact Hin|]. split.
    + intros o Ho Hexo. unfold resource_candidates in Ef. rewrite Ho in Ef.
      simpl in Ef. rewrite Hexo in Ef. by inversion Ef.
    + intros Hne. congruence.
  - pose proof (find_none _ _ Ef) as Hnone.
    destruct resource_candidates as [|q rest] eqn:Ec; [discriminate|].
    inversion H; subst q. split; [by left|]. split.
    + intros o Ho Hexo. unfold resource_candidates in Ec. rewrite Ho in Ec.
      by inversion Ec.
    + intros _. split; [exact Hnone|].
      intros o Ho. unfold resource_candidates in Ec. rewrite Ho in Ec.
      by inversion Ec.
Qed.

End ResourcePathFacts.

(** * The properties above on concrete runs *)
Section QuietChannel.
#[local] Existing Instance PyJson.lib.
#[local] Existing Instance Demo.quiet.

Lemma matching_response_returned_witness :
  exists w',
    poll_cycle Demo.old_id Demo.leftover
    = (Ret (Some (PDict [("id", PStr Demo.old_id); ("success", PBool true);
                         ("result", PDict [("ok", PBool true)])])), w')
    /\ files w' !! RSP_FILE = None.
Proof.
  destruct (matching_response_returned Demo.old_id Demo.leftover
              (Demo.response_bytes Demo.old_id)
              (PDict [("id", PStr Demo.old_id); ("success", PBool true);
                      ("result", PDict [("ok", PBool true)])]))
    as (w' & Hc & Hf & _); try (vm_compute; reflexivity).
  - split; [vm_compute; reflexivity|].
    eexists. split; vm_compute; reflexivity.
  - exists w'. auto.
Defined.

Lemma command_file_stays_witness :
  files (Demo.final (send_command 8 "ping" PNone Demo.boot)) !! CMD_FILE
  = Some (text_encode (json_dumps (envelope (uuid4 2) "ping" PNone))).
Proof.
  apply (command_file_stays 8 "ping" PNone Demo.boot (uuid4 2)
           (snd (prepare Demo.boot))
           (snd (publish (envelope (uuid4 2) "ping" PNone) (snd (prepare Demo.boot))))
           (Demo.outcome (send_command 8 "ping" PNone Demo.boot)));
    vm_compute; reflexivity.
Defined.

Lemma response_without_string_id_discarded_witness :
  exists w',
    poll_cycle (uuid4 0) Cases.anonymous = (Ret None, w')
    /\ files w' !! RSP_FILE = None.
Proof.
  apply (response_without_string_id_discarded (uuid4 0) Cases.anonymous
           Cases.anonymous_bytes [("success", PBool true); ("result", PNone)]);
    try (vm_compute; reflexivity).
  intros s. vm_compute. discriminate.
Defined.

End QuietChannel.

Section WriteRefusedScenario.
#[local] Existing Instance PyJson.lib.
#[local] Existing Instance Cases.write_refused.

Lemma temp_file_left_behind_witness :
  let e := OSError "[Errno 28] No space left on device" in
  let w1 := snd (prepare Demo.boot) in
  let w2 := snd (publish (envelope (uuid4 2) "ping" PNone) w1) in
  send_command 8 "ping" PNone Demo.boot
  = Some (Ret (write_failure (uuid4 2) e), w2)
  /\ is_Some (files w2 !! (IPC_DIR +:+ "/tmp" +:+ mkstemp_name 4 +:+ ".tmp")).
Proof.
  intros e w1 w2.
  apply (temp_file_left_behind 8 "ping" PNone Demo.boot (uuid4 2) w1 e w2);
    vm_compute; reflexivity.
Defined.

End WriteRefusedScenario.

Section UnlinkRefusedScenario.
#[local] Existing Instance PyJson.lib.
#[local] Existing Instance Cases.unlink_refused.

Lemma unlink_refused_keeps_response_witness :
  exists w',
    poll_cycle Demo.old_id Demo.leftover = (Ret None, w')
    /\ files w' !! RSP_FILE = Some (Demo.response_bytes Demo.old_id).
Proof.
  apply (unlink_refused_keeps_response Demo.old_id Demo.leftover
           (Demo.response_bytes Demo.old_id) "[Errno 13] Permission denied");
    vm_compute; reflexivity.
Defined.

End UnlinkRefusedScenario.

Section DiskFullMore.
#[local] Existing Instance PyJson.lib.
#[local] Existing Instance Demo.disk_full.

Lemma merge_json_config_write_refused_witness :
  exists w',
    merge_json_config Demo.claude_desktop_config ["mcpServers"; "reaper"]
      Demo.server_entry Demo.empty_desktop_config
    = (Raise (OSError "[Errno 28] No space left on device"), w')
    /\ files w' !! Demo.claude_desktop_config = Some "".
Proof.
  apply (merge_json_config_write_refused Demo.claude_desktop_config
           ["mcpServers"; "reaper"] Demo.server_entry Demo.empty_desktop_config
           (PDict [("mcpServers", PDict [("reaper", Demo.server_entry)])])
           "[Errno 28] No space left on device").
  - intros k. reflexivity.
  - vm_compute. reflexivity.
  - intros k Hk. vm_compute in Hk. unfold fault; simpl. unfold Demo.fault_at.
    destruct (Nat.eqb_spec k 4); [lia|reflexivity].
  - vm_compute. reflexivity.
Defined.

End DiskFullMore.

Section InstallerMoreScenario.
#[local] Existing Instance PyJson.lib.
#[local] Existing Instance Demo.quiet.

Lemma merge_json_config_raises_witness :
  (exists w', merge_json_config Demo.claude_code_config ["reaper"]
                Demo.server_entry Cases.list_code_config
              = (Raise TypeError, w'))
  /\ (forall e w', merge_json_config Demo.claude_code_config ["reaper"]
                     Demo.server_entry Cases.list_code_config = (Raise e, w') ->
                   files w' = files Cases.list_code_config).
Proof.
  destruct (merge_json_config_raises Demo.claude_code_config ["reaper"]
              Demo.server_entry Cases.list_code_config quiet_is_calm)
    as [Hkeep Hc].
  destruct (Hc (PList [])) as (_ & Hlist & _); [vm_compute; reflexivity|].
  split; [|exact Hkeep].
  apply Hlist; [discriminate|]. intros d. discriminate.
Defined.

Lemma merge_json_config_written_witness :
  exists d1,
    files (snd (merge_json_config Demo.claude_desktop_config
                  ["mcpServers"; "reaper"] Demo.server_entry
                  Demo.empty_desktop_config))
    = <[Demo.claude_desktop_config := config_bytes (PDict d1)]>
        (files Demo.empty_desktop_config)
    /\ get_path (PDict d1) ["mcpServers"; "reaper"] = Some Demo.server_entry
    /\ map fst d1 = ["mcpServers"].
Proof.
  destruct (merge_json_config_written Demo.claude_desktop_config
              ["mcpServers"; "reaper"] Demo.server_entry
              Demo.empty_desktop_config
              (snd (merge_json_config Demo.claude_desktop_config
                      ["mcpServers"; "reaper"] Demo.server_entry
                      Demo.empty_desktop_config))
              quiet_is_calm)
    as (d0 & d1 & H0 & Hf & Hg & Hk); [vm_compute; reflexivity|].
  exists d1. split; [exact Hf|]. split; [exact Hg|].
  destruct (Hk "mcpServers" ["reaper"] eq_refl) as [_ Hm].
  vm_compute in H0. inversion H0; subst d0. exact Hm.
Defined.

Lemma merge_json_config_false_witness :
  files (snd (merge_json_config Demo.claude_code_config ["reaper"]
                Demo.server_entry Demo.broken_code_config))
  = files Demo.broken_code_config.
Proof.
  apply (merge_json_config_false Demo.claude_code_config ["reaper"]
           Demo.server_entry Demo.broken_code_config
           (snd (merge_json_config Demo.claude_code_config ["reaper"]
                   Demo.server_entry Demo.broken_code_config))
           quiet_is_calm).
  vm_compute. reflexivity.
Defined.

Lemma remove_json_config_key_true_witness :
  let w := snd (merge_json_config Demo.claude_desktop_config
                  ["mcpServers"; "reaper"] Demo.server_entry
                  Demo.empty_desktop_config) in
  exists d1,
    files (snd (remove_json_config_key Demo.claude_desktop_config
                  ["mcpServers"; "reaper"] w))
    = <[Demo.claude_desktop_config := config_bytes (PDict d1)]> (files w)
    /\ get_path (PDict d1) ["mcpServers"; "reaper"] = None.
Proof.
  intros w.
  destruct (remove_json_config_key_true Demo.claude_desktop_config
              ["mcpServers"; "reaper"] w
              (snd (remove_json_config_key Demo.claude_desktop_config
                      ["mcpServers"; "reaper"] w))
              quiet_is_calm)
    as (b & d0 & d1 & Hb & Hj & _ & Hf & Hg & _); [vm_compute; reflexivity|].
  exists d1. split; [exact Hf|]. apply Hg.
  vm_compute in Hb. inversion Hb; subst b.
  vm_compute in Hj. inversion Hj; subst d0. vm_compute. reflexivity.
Defined.

Lemma remove_json_config_key_false_witness :
  files (snd (remove_json_config_key Demo.claude_code_config ["reaper"]
                Demo.blank_code_config))
  = files Demo.blank_code_config.
Proof.
  apply (remove_json_config_key_false Demo.claude_code_config ["reaper"]
           Demo.blank_code_config
           (snd (remove_json_config_key Demo.claude_code_config ["reaper"]
                   Demo.blank_code_config))
           quiet_is_calm).
  vm_compute. reflexivity.
Defined.

End InstallerMoreScenario.

Section BareWindows.
#[local] Existing Instance Cases.bare_windows.


End BareWindows.

Section StaleOverride.
#[local] Existing Instance Cases.stale_override.

Lemma get_reaper_resource_path_choice_witness :
  environ_truthy "REAPER_RESOURCE_PATH" = Some "/opt/reaper"
  /\ get_reaper_resource_path = Some "/home/u/.config/REAPER"
  /\ In "/home/u/.config/REAPER" resource_candidates.
Proof.
  split; [vm_compute; reflexivity|]. split; [vm_compute; reflexivity|].
  apply (get_reaper_resource_path_choice "/home/u/.config/REAPER").
  vm_compute. reflexivity.
Defined.

End StaleOverride.

Section FailingScenario.
#[local] Existing Instance PyJson.lib.
#[local] Existing Instance Cases.failing.
#[local] Existing Instance Cases.text.

Lemma call_tool_text_witness :
  Demo.outcome (call_tool 8 "set_track_volume" (PDict [("track", PInt 7)]) Demo.boot)
  = Ret [ {| content_type := "text";
             content_text := "Error: Track 7 not found" |} ].
Proof.
  destruct (call_tool_text 8 "set_track_volume" (PDict [("track", PInt 7)])
              Demo.boot
              [("id", PStr (uuid4 2)); ("success", PBool false);
               ("error", PStr "Track 7 not found")]
              (Demo.final (send_command 8 "set_track_volume"
                             (PDict [("track", PInt 7)]) Demo.boot)))
    as (Hfail & _); [vm_compute; reflexivity|].
  destruct Hfail as [Hs _]; [reflexivity|].
  rewrite (Hs "Track 7 not found" eq_refl). reflexivity.
Defined.

End FailingScenario.

Section AnsweringScenario.
#[local] Existing Instance PyJson.lib.
#[local] Existing Instance Demo.answering.

Lemma quick_ping_result_witness :
  exists rid,
    py_get (Demo.outcome_value (_quick_ping 50 41 Demo.boot)) "id" = Ret rid
    /\ py_eq rid (PStr (uuid4 2)) = true.
Proof.
  destruct (quick_ping_result 50 41 Demo.boot
              (Demo.outcome_value (_quick_ping 50 41 Demo.boot))
              (Demo.final (_quick_ping 50 41 Demo.boot)))
    as [Hn|(cmd_id & w1 & rid & Hp & Hg & Hq)]; [vm_compute; reflexivity| |].
  - vm_compute in Hn. discriminate Hn.
  - exists rid. split; [exact Hg|].
    vm_compute in Hp. inversion Hp; subst cmd_id. exact Hq.
Defined.

End AnsweringScenario.

Section SluggishPing.
#[local] Existing Instance PyJson.lib.
#[local] Existing Instance Cases.sluggish.

Lemma quick_ping_terminates_witness :
  exists r w', _quick_ping 50 41 Demo.boot = Some (r, w').
Proof.
  apply (quick_ping_terminates 50 41 Demo.boot); [lia| |lia].
  intros k. vm_compute. discriminate.
Defined.

Lemma quick_ping_publishes_ping_witness :
  files (Demo.final (_quick_ping 50 41 Demo.boot)) !! CMD_FILE
  = Some (text_encode (json_dumps (envelope (uuid4 2) "ping" PNone))).
Proof.
  destruct (quick_ping_publishes_ping 50 41 Demo.boot (uuid4 2)
              (snd (prepare Demo.boot))) as [Hkeep _];
    [vm_compute; reflexivity|].
  apply (Hkeep (snd (publish (envelope (uuid4 2) "ping" PNone)
                       (snd (prepare Demo.boot))))
           (Demo.outcome (_quick_ping 50 41 Demo.boot)));
    vm_compute; reflexivity.
Defined.

Lemma quick_ping_gives_up_late_witness :
  _quick_ping 50 41 Demo.boot
  = Some (Ret (PDict [("success", PBool false)]),
          Demo.final (_quick_ping 50 41 Demo.boot))
  /\ 2000 <= now (Demo.final (_quick_ping 50 41 Demo.boot)).
Proof.
  split; [vm_compute; reflexivity|].
  destruct (quick_ping_gives_up_late 50 41 Demo.boot (uuid4 2)
              (snd (prepare Demo.boot))
              (snd (publish (envelope (uuid4 2) "ping" PNone)
                      (snd (prepare Demo.boot))))
              (Demo.final (_quick_ping 50 41 Demo.boot)))
    as (start & w3 & Hm & Hlate); try (vm_compute; reflexivity).
  vm_compute in Hm. inversion Hm; subst start. lia.
Defined.

End SluggishPing.

Section AnsweringTool.
#[local] Existing Instance PyJson.lib.
#[local] Existing Instance Demo.answering.
#[local] Existing Instance Cases.text.

Lemma call_tool_one_text_witness :
  exists text,
    Demo.outcome (call_tool 8 "ping" (PDict []) Demo.boot)
    = Ret [ {| content_type := "text"; content_text := text |} ].
Proof.
  destruct (call_tool_one_text 8 "ping" (PDict []) Demo.boot
              (Demo.outcome (call_tool 8 "ping" (PDict []) Demo.boot))
              (Demo.final (send_command 8 "ping" (PDict []) Demo.boot)))
    as [(d & text & _ & Hr)|(e & _ & Hr)]; [vm_compute; reflexivity| |].
  - exists text. exact Hr.
  - vm_compute in Hr. discriminate Hr.
Defined.

End AnsweringTool.


Section PartialReplyScenario.
#[local] Existing Instance PyJson.lib.
#[local] Existing Instance Demo.partial_reply.


End PartialReplyScenario.
